(** * Test-data generator and HTTP probe helpers of the QA suite

    A shallow embedding of the helper layer of the repository:
    - [TestDataGenerator] and [ApiHelpers] (cypress/support utilities),
    - the custom commands [apiRequest], [validateResponseSchema] and
      [testRateLimit] (cypress/support commands).

    JavaScript objects are finite maps from property names to values,
    strings are [string], integers are [Z], and a finite number that need
    not be whole is a rational ([Q]).  The clock ([Date.now]), the
    random source ([Math.random]) and the network behind [cy.request] are
    oracles held in an explicit [World] that every effectful function
    threads. *)

From stdpp Require Import gmap strings pretty list.
From Stdlib Require Import ZArith QArith Qround Ascii String Lia.

Local Open Scope string_scope.
Local Open Scope Z_scope.

(** ** JavaScript values *)

Module JS.

(** Values that the helpers build or inspect.  [VNative] stands for a
    built-in function or object of the host (for example the members of
    [Object.prototype]); it is opaque apart from its name. *)
#[warnings="-register-all"] Inductive val : Type :=
  | VUndef
  | VNull
  | VBool (b : bool)
  | VNum (z : Z)
  | VStr (s : string)
  | VObj (props : gmap string val)
  | VNative (name : string).

Abbreviation obj := (gmap string val).

(** [ToBoolean]. *)
Definition truthy (v : val) : bool :=
  match v with
  | VUndef | VNull => false
  | VBool b => b
  | VNum z => negb (z =? 0)
  | VStr s => negb (String.eqb s "")
  | VObj _ | VNative _ => true
  end.

(** A non-empty string value. *)
Definition nonempty_text (v : val) : Prop := ∃ s, v = VStr s ∧ s ≠ "".

(** [a || b]. *)
Definition or_else (a b : val) : val := if truthy a then a else b.

(** Properties every plain object inherits from [Object.prototype]. *)
Definition object_prototype : obj :=
  list_to_map
    [ ("constructor", VNative "Object");
      ("__proto__", VNative "Object.prototype");
      ("__defineGetter__", VNative "__defineGetter__");
      ("__defineSetter__", VNative "__defineSetter__");
      ("__lookupGetter__", VNative "__lookupGetter__");
      ("__lookupSetter__", VNative "__lookupSetter__");
      ("hasOwnProperty", VNative "hasOwnProperty");
      ("isPrototypeOf", VNative "isPrototypeOf");
      ("propertyIsEnumerable", VNative "propertyIsEnumerable");
      ("toLocaleString", VNative "toLocaleString");
      ("toString", VNative "toString");
      ("valueOf", VNative "valueOf") ].

(** [o[k]] on a plain object [o]: own properties first, then the
    prototype, [undefined] when neither has [k]. *)
Definition get_prop (o : obj) (k : string) : val :=
  match o !! k with
  | Some v => v
  | None =>
      match object_prototype !! k with
      | Some v => v
      | None => VUndef
      end
  end.

(** [k in o] on a plain object. *)
Definition has_prop (o : obj) (k : string) : bool :=
  match o !! k with
  | Some _ => true
  | None => bool_decide (is_Some (object_prototype !! k))
  end.

(** Own enumerable properties copied by a spread [...v]: those of an
    object; nothing for [undefined], [null], numbers and booleans.  A
    string spreads its indexed characters. *)
Fixpoint spread_chars (i : nat) (s : string) : obj :=
  match s with
  | EmptyString => ∅
  | String c s' => <[pretty i := VStr (String c "")]> (spread_chars (S i) s')
  end.

Definition spread (v : val) : obj :=
  match v with
  | VObj m => m
  | VStr s => spread_chars 0 s
  | _ => ∅
  end.

(** [{ ...a, ...b }]: later entries win. *)
Definition merge (a b : obj) : obj := b ∪ a.

(** [typeof v].  Among the built-ins only [Object.prototype] is an object;
    the others are functions. *)
Definition typeof (v : val) : string :=
  match v with
  | VUndef => "undefined"
  | VNull => "object"
  | VBool _ => "boolean"
  | VNum _ => "number"
  | VStr _ => "string"
  | VObj _ => "object"
  | VNative name =>
      if String.eqb name "Object.prototype" then "object" else "function"
  end.

End JS.

Export JS.

(** ** Strings *)

Module Str.

Fixpoint take (n : nat) (s : string) : string :=
  match n, s with
  | S n', String c s' => String c (take n' s')
  | _, _ => ""
  end.

Fixpoint drop (n : nat) (s : string) : string :=
  match n, s with
  | S n', String _ s' => drop n' s'
  | _, _ => s
  end.

Definition len (s : string) : Z := Z.of_nat (String.length s).

(** [s.substring(start, end)]: both indices are clamped to the string and
    swapped when out of order. *)
Definition substring (start stop : Z) (s : string) : string :=
  let clamp i := Z.to_nat (Z.min (Z.max i 0) (len s)) in
  let a := clamp start in
  let b := clamp stop in
  take (Nat.max a b - Nat.min a b) (drop (Nat.min a b) s).

(** [s.substring(start)]. *)
Definition substring_from (start : Z) (s : string) : string :=
  substring start (len s) s.

(** [s.slice(-k)] for [k > 0]: the last [k] characters, or all of [s]. *)
Definition slice_last (k : nat) (s : string) : string :=
  drop (String.length s - k) s.

(** [s.repeat(n)]. *)
Fixpoint repeat (s : string) (n : nat) : string :=
  match n with
  | O => ""
  | S n' => s +:+ repeat s n'
  end.

(** [s.includes(sub)]. *)
Fixpoint includes (s sub : string) : bool :=
  String.prefix sub s ||
  match s with
  | EmptyString => false
  | String _ s' => includes s' sub
  end.

Definition upper_char (c : ascii) : ascii :=
  let n := nat_of_ascii c in
  if (97 <=? n)%nat && (n <=? 122)%nat then ascii_of_nat (n - 32) else c.

(** [s.toUpperCase()] on ASCII text. *)
Fixpoint toUpperCase (s : string) : string :=
  match s with
  | EmptyString => ""
  | String c s' => String (upper_char c) (toUpperCase s')
  end.

(** Character classes of the password policy. *)
Definition is_upper (c : ascii) : bool :=
  let n := nat_of_ascii c in (65 <=? n)%nat && (n <=? 90)%nat.
Definition is_lower (c : ascii) : bool :=
  let n := nat_of_ascii c in (97 <=? n)%nat && (n <=? 122)%nat.
Definition is_digit (c : ascii) : bool :=
  let n := nat_of_ascii c in (48 <=? n)%nat && (n <=? 57)%nat.
Definition is_special (c : ascii) : bool :=
  negb (is_upper c || is_lower c || is_digit c).

(** The double-quote character. *)
Definition dquote : ascii := ascii_of_nat 34.

Definition sign_or_digit (c : ascii) : bool :=
  is_digit c || Ascii.eqb c "-".
Definition is_plus (c : ascii) : bool := Ascii.eqb c "+".

(** Characters of a dialled number: digits, ['+'] and ['-']. *)
Definition is_phone_char (c : ascii) : bool :=
  is_digit c || Ascii.eqb c "+" || Ascii.eqb c "-".

(** Some character of [s] satisfies [p]. *)
Fixpoint has (p : ascii → bool) (s : string) : bool :=
  match s with
  | EmptyString => false
  | String c s' => p c || has p s'
  end.

(** Every character of [s] satisfies [p]. *)
Fixpoint all (p : ascii → bool) (s : string) : bool :=
  match s with
  | EmptyString => true
  | String c s' => p c && all p s'
  end.

End Str.

(** ** The host: clock, random source, network, log *)

Module Host.

(** One value returned by [Math.random()], seen through the two
    observations the helpers make of it.  Floating-point arithmetic is
    not modelled: [text36] is the text of [r.toString(36)] and
    [scaled k] is [Math.floor(r * k)]. *)
Record Draw := mkDraw {
  text36 : string;
  scaled : Z → Z
}.

(** What the host guarantees about a draw [0 <= r < 1]: its base-36 text
    is ["0"] or ["0."] followed by base-36 digits, and [Math.floor(r * k)]
    lies in [0, k). *)
Definition is_base36 (c : ascii) : bool := Str.is_digit c || Str.is_lower c.

Definition draw_ok (d : Draw) : Prop :=
  (text36 d = "0" ∨
   ∃ digits, text36 d = "0." +:+ digits ∧ digits ≠ "" ∧
             Str.all is_base36 digits = true) ∧
  ∀ k, 0 < k → 0 ≤ scaled d k < k.

(** A response as [cy.request] yields it. *)
Record Response := mkResponse {
  status : Z;
  headers : obj;
  body : val
}.

Inductive transport_failure := DnsFailure | ConnectionRefused | TimedOut.

Inductive transport_result :=
  | Responded (r : Response)
  | NoResponse (why : transport_failure).

(** Lines written with [cy.log]. *)
Inductive log_entry :=
  | LogApiRequest (method url : string)
  | LogRequestBody (b : val)
  | LogResponseStatus (st : Z)
  | LogResponseBody (b : val)
  | LogRateLimitRequest (i : Z) (st : Z)
  | LogRateLimitSummary (limited : nat) (requestCount : Z).

(** Failed chai expectations, with what their messages report. *)
Inductive assertion :=
  | TargetNullOrUndefined
  | ExpectedProperty (target : val) (name : string)
  | ExpectedEqual (actual expected : val)
  | ExpectedNotNull
  | ExpectedNotUndefined.

(** What a helper can raise.  [TypeError target name] is the language's
    error for reading the property [name] of [target] when [target] is
    [null] or [undefined]. *)
Inductive error :=
  | TransportError (why : transport_failure)
  | StatusCodeError (st : Z)
  | InvalidOption (name : string)
  | AssertionError (a : assertion)
  | TypeError (target : val) (name : string).

(** The state threaded through the helpers.  [clock n] is the value of
    the [n]-th [Date.now()] of the run, [rng n] the [n]-th
    [Math.random()], [net n req] the outcome of the [n]-th HTTP request
    when it carries the options [req]; [sent] and [logged] record what
    was issued and logged, oldest first. *)
Record World := mkWorld {
  clock : nat → Z;
  clock_reads : nat;
  rng : nat → Draw;
  rng_draws : nat;
  apiBaseUrl : string;
  net : nat → obj → transport_result;
  sent : list obj;
  logged : list log_entry
}.

(** How a helper ends: with a value, with a raised error, or (in the
    model only) with the iteration budget of a loop used up. *)
Inductive Result (A : Type) :=
  | Ok (a : A) (w : World)
  | Throw (e : error) (w : World)
  | OutOfFuel.
Arguments Ok {A} a w.
Arguments Throw {A} e w.
Arguments OutOfFuel {A}.

Definition M (A : Type) : Type := World → Result A.

Definition ret {A} (a : A) : M A := fun w => Ok a w.

Definition bind {A B} (m : M A) (k : A → M B) : M B := fun w =>
  match m w with
  | Ok a w' => k a w'
  | Throw e w' => Throw e w'
  | OutOfFuel => OutOfFuel
  end.

Definition throw {A} (e : error) : M A := fun w => Throw e w.

Definition out_of_fuel {A} : M A := fun _ => OutOfFuel.

(** The value of a finished computation, the error of a failed one, and
    the requests on the wire when it stopped. *)
Definition value {A} (r : Result A) : option A :=
  match r with
  | Ok a _ => Some a
  | _ => None
  end.

Definition raised {A} (r : Result A) : option error :=
  match r with
  | Throw e _ => Some e
  | _ => None
  end.

Definition issued {A} (r : Result A) : list obj :=
  match r with
  | Ok _ w | Throw _ w => sent w
  | OutOfFuel => []
  end.

(** The log when the computation stopped. *)
Definition log_of {A} (r : Result A) : list log_entry :=
  match r with
  | Ok _ w | Throw _ w => logged w
  | OutOfFuel => []
  end.

(** The four ways a helper changes the world. *)
Definition after_clock (w : World) : World :=
  mkWorld (clock w) (S (clock_reads w)) (rng w) (rng_draws w)
          (apiBaseUrl w) (net w) (sent w) (logged w).

Definition after_draw (w : World) : World :=
  mkWorld (clock w) (clock_reads w) (rng w) (S (rng_draws w))
          (apiBaseUrl w) (net w) (sent w) (logged w).

Definition after_log (e : log_entry) (w : World) : World :=
  mkWorld (clock w) (clock_reads w) (rng w) (rng_draws w)
          (apiBaseUrl w) (net w) (sent w) (logged w ++ [e]).

Definition after_send (requestOptions : obj) (w : World) : World :=
  mkWorld (clock w) (clock_reads w) (rng w) (rng_draws w)
          (apiBaseUrl w) (net w) (sent w ++ [requestOptions]) (logged w).

(** [Date.now()]. *)
Definition Date_now : M Z := fun w =>
  Ok (clock w (clock_reads w)) (after_clock w).

(** [Math.random()]. *)
Definition Math_random : M Draw := fun w =>
  Ok (rng w (rng_draws w)) (after_draw w).

(** [cy.log(...)]. *)
Definition cy_log (e : log_entry) : M unit := fun w => Ok tt (after_log e w).

(** [Cypress.env('apiBaseUrl')]. *)
Definition env_apiBaseUrl : M string := fun w => Ok (apiBaseUrl w) w.

(** The framework reads [failOnStatusCode] from the request options: a
    boolean, [true] when the option is not given.  The helpers of this
    repository only ever put a boolean there; what the framework makes of
    another kind of value is not visible from them, and the model stops
    the command in that case ([None] here, [InvalidOption] below). *)
Definition fail_on_status (requestOptions : obj) : option bool :=
  match requestOptions !! "failOnStatusCode" with
  | None | Some VUndef => Some true
  | Some (VBool b) => Some b
  | Some _ => None
  end.

Definition ok_status (st : Z) : bool := (200 <=? st) && (st <=? 399).

(** [cy.request(requestOptions)], the framework's primitive.  It is not
    code of this repository; the model keeps what the probe helper relies
    on: the request is handed to the network, a transport-level failure
    fails the command, and a response outside 2xx/3xx fails it exactly
    when [failOnStatusCode] is on. *)
Definition cy_request (requestOptions : obj) : M Response := fun w =>
  match fail_on_status requestOptions with
  | None => Throw (InvalidOption "failOnStatusCode") w
  | Some strict =>
      let w' := after_send requestOptions w in
      match net w (List.length (sent w)) requestOptions with
      | NoResponse why => Throw (TransportError why) w'
      | Responded r =>
          if strict && negb (ok_status (status r))
          then Throw (StatusCodeError (status r)) w'
          else Ok r w'
      end
  end.

End Host.

Export Host.

Notation "'let*' x ':=' m 'in' k" := (Host.bind m (fun x => k))
  (at level 10, x name, m at level 100, k at level 200).

(** ** TestDataGenerator *)

Module TestDataGenerator.

(** [generateUniqueEmail(prefix = 'test', domain = 'example.com')]. *)
Definition generateUniqueEmail (prefix domain : option string) : M string :=
  let prefix := default "test" prefix in
  let domain := default "example.com" domain in
  let* timestamp := Date_now in
  let* r := Math_random in
  let randomString := Str.substring_from 7 (text36 r) in
  ret (prefix +:+ "+" +:+ pretty timestamp +:+ "+" +:+ randomString
         +:+ "@" +:+ domain).

(** The loop [while (password.length < bound) password += 'a' + digit + '!'];
    [fuel] bounds the number of iterations the model will run. *)
Fixpoint pad_password (fuel : nat) (bound : Z) (password : string) : M string :=
  if Str.len password <? bound then
    match fuel with
    | O => out_of_fuel
    | S fuel' =>
        let* r := Math_random in
        pad_password fuel' bound
          (password +:+ "a" +:+ pretty (scaled r 10) +:+ "!")
    end
  else ret password.

(** [generateSecurePassword(length = 12, options = {})]. *)
Definition generateSecurePassword (fuel : nat) (length : option Z)
    (options : option obj) : M string :=
  let length := default 12 length in
  let options := default ∅ options in
  let* now := Date_now in
  let timestamp := Str.slice_last 4 (pretty now) in
  let* r := Math_random in
  let randomSuffix := Str.substring 2 4 (text36 r) in
  let password := "Test" +:+ timestamp +:+ "!" +:+ randomSuffix in
  let* password := pad_password fuel (Z.max 8 length) password in
  ret (if (Str.len password >? length) && (length >? 8)
       then Str.substring 0 length password
       else password).

(** [list[i]] inside a template literal: a missing element prints as
    ["undefined"]. *)
Definition pick (l : list string) (i : Z) : string :=
  if i <? 0 then "undefined" else default "undefined" (l !! Z.to_nat i).

Definition prefixes : list string :=
  ["Tech"; "Global"; "Digital"; "Smart"; "Innovation"; "Future"; "Advanced"].
Definition suffixes : list string :=
  ["Solutions"; "Systems"; "Corp"; "Ltd"; "Inc"; "Technologies"; "Enterprises"].

(** [generateCompanyName()]. *)
Definition generateCompanyName : M string :=
  let* r1 := Math_random in
  let prefix := pick prefixes (scaled r1 (Z.of_nat (List.length prefixes))) in
  let* r2 := Math_random in
  let suffix := pick suffixes (scaled r2 (Z.of_nat (List.length suffixes))) in
  ret (prefix +:+ " " +:+ suffix).

(** [generatePhoneNumber(format = 'US')]. *)
Definition generatePhoneNumber (format : option string) : M string :=
  let format := default "US" format in
  if String.eqb format "US" then
    let* a := Math_random in
    let* b := Math_random in
    let* c := Math_random in
    ret ("+1-" +:+ pretty (scaled a 900 + 100) +:+ "-"
           +:+ pretty (scaled b 900 + 100) +:+ "-"
           +:+ pretty (scaled c 9000 + 1000))
  else if String.eqb format "UK" then
    let* a := Math_random in
    let* b := Math_random in
    ret ("+44-" +:+ pretty (scaled a 9000 + 1000) +:+ "-"
           +:+ pretty (scaled b 900000 + 100000))
  else
    let* a := Math_random in
    let* b := Math_random in
    ret ("+1-555-" +:+ pretty (scaled a 900 + 100) +:+ "-"
           +:+ pretty (scaled b 9000 + 1000)).

(** [generateUserData(overrides = {})]. *)
Definition generateUserData (fuel : nat) (overrides : option obj) : M obj :=
  let overrides := default ∅ overrides in
  let firstName := or_else (get_prop overrides "firstName") (VStr "TestUser") in
  let lastName := or_else (get_prop overrides "lastName") (VStr "Automated") in
  let* email := generateUniqueEmail None None in
  let* password := generateSecurePassword fuel None None in
  let* companyName := generateCompanyName in
  let* phone := generatePhoneNumber None in
  ret (merge
         (list_to_map
            [ ("email", VStr email);
              ("password", VStr password);
              ("confirmPassword", VNull);
              ("firstName", firstName);
              ("lastName", lastName);
              ("companyName", VStr companyName);
              ("phone", VStr phone) ])
         (spread (VObj overrides))).

(** The literal of [generateUserData] before the spread: seven fields, all
    but [confirmPassword] holding text. *)
Definition user_literal (email password companyName phone : string)
    (firstName lastName : val) : obj :=
  list_to_map
    [ ("email", VStr email);
      ("password", VStr password);
      ("confirmPassword", VNull);
      ("firstName", firstName);
      ("lastName", lastName);
      ("companyName", VStr companyName);
      ("phone", VStr phone) ].

(** *** Arguments of any kind

    The definitions above take their arguments as the JSDoc types them: a
    whole-number [length], an [overrides] object.  JavaScript lets a
    caller pass more.  The definitions below follow the same source lines
    for a [length] that is any finite number, whole or not, and for an
    [overrides] that is any value; on whole numbers and on objects they
    are the definitions above. *)

(** [x < y] on numbers. *)
Definition num_lt (x y : Q) : bool := negb (Qle_bool y x).

(** [Math.max(x, y)]. *)
Definition Math_max (x y : Q) : Q := if Qle_bool x y then y else x.

(** How [substring] reads a position that is not whole: the fraction is
    dropped. *)
Definition to_integer (q : Q) : Z := Z.quot (Qnum q) (Z.pos (Qden q)).

(** The padding loop against a bound that need not be whole. *)
Fixpoint pad_password_num (fuel : nat) (bound : Q) (password : string)
    : M string :=
  if num_lt (inject_Z (Str.len password)) bound then
    match fuel with
    | O => out_of_fuel
    | S fuel' =>
        let* r := Math_random in
        pad_password_num fuel' bound
          (password +:+ "a" +:+ pretty (scaled r 10) +:+ "!")
    end
  else ret password.

(** [generateSecurePassword(length = 12, options = {})] for any finite
    number [length]. *)
Definition generateSecurePassword_num (fuel : nat) (length : option Q)
    (options : option obj) : M string :=
  let length := default (inject_Z 12) length in
  let options := default ∅ options in
  let* now := Date_now in
  let timestamp := Str.slice_last 4 (pretty now) in
  let* r := Math_random in
  let randomSuffix := Str.substring 2 4 (text36 r) in
  let password := "Test" +:+ timestamp +:+ "!" +:+ randomSuffix in
  let* password := pad_password_num fuel (Math_max (inject_Z 8) length) password in
  ret (if num_lt length (inject_Z (Str.len password))
          && num_lt (inject_Z 8) length
       then Str.substring 0 (to_integer length) password
       else password).

(** [generateUserData(overrides)] for any value [overrides].  The default
    [{}] replaces [undefined] only.  The first statement reads
    [overrides.firstName]: on [null] that read raises a [TypeError],
    before the clock or the random source is touched.  A value that is
    neither an object nor [null] has no [firstName] or [lastName], own or
    inherited, and spreads as [spread] says, so the function goes on as
    with the object of its own enumerable properties. *)
Definition generateUserData_val (fuel : nat) (overrides : val) : M obj :=
  match overrides with
  | VUndef => generateUserData fuel None
  | VNull => throw (TypeError VNull "firstName")
  | VObj props => generateUserData fuel (Some props)
  | v => generateUserData fuel (Some (spread v))
  end.

End TestDataGenerator.

(** ** ApiHelpers *)

Module ApiHelpers.

Definition templates : obj :=
  list_to_map
    [ ("emptyObject", VObj ∅);
      ("nullValues",
        VObj (list_to_map [("userName", VNull); ("password", VNull)]));
      ("invalidTypes",
        VObj (list_to_map [("userName", VNum 12345); ("password", VBool true)]));
      ("missingUserName",
        VObj (list_to_map [("password", VStr "ValidPassword123!")]));
      ("missingPassword",
        VObj (list_to_map [("userName", VStr "validUser")]));
      ("emptyStrings",
        VObj (list_to_map [("userName", VStr ""); ("password", VStr "")]));
      ("tooLong",
        VObj (list_to_map [("userName", VStr (Str.repeat "a" 1000));
                           ("password", VStr (Str.repeat "b" 1000))]));
      ("specialChars",
        VObj (list_to_map
                [("userName",
                   VStr ("<script>alert(" +:+ String Str.dquote "xss"
                           +:+ String Str.dquote ")</script>"));
                 ("password", VStr "DROP TABLE users;")])) ].

(** [createMalformedData(type)]: [templates[type] || templates.emptyObject]. *)
Definition createMalformedData (type : string) : val :=
  or_else (get_prop templates type) (get_prop templates "emptyObject").

(** [generateApiUserData(overrides = {})]. *)
Definition generateApiUserData (fuel : nat) (overrides : option obj) : M obj :=
  let overrides := default ∅ overrides in
  let* now := Date_now in
  let* r := Math_random in
  let userName :=
    "testUser+" +:+ pretty now +:+ "+" +:+ Str.substring_from 7 (text36 r) in
  let* password := TestDataGenerator.generateSecurePassword fuel None None in
  ret (merge
         (list_to_map [ ("userName", VStr userName); ("password", VStr password) ])
         (spread (VObj overrides))).

(** *** validateResponseStructure *)

(** How [validateResponseStructure] ends: it returns a boolean, or the
    call [expectedStructure.hasOwnProperty(key)] raises a [TypeError]. *)
Inductive completion :=
  | Returns (b : bool)
  | ThrowsTypeError.

(** [key in response] for a response that passed the guard (an object
    literal, or the built-in [Object.prototype]). *)
Definition in_response (response : val) (key : string) : bool :=
  match response with
  | VObj m => has_prop m key
  | VNative _ => bool_decide (is_Some (object_prototype !! key))
  | _ => false
  end.

(** [response[key]] for such a response; [Object.prototype.__proto__] is
    [null]. *)
Definition response_member (response : val) (key : string) : val :=
  match response with
  | VObj m => get_prop m key
  | VNative _ =>
      if String.eqb key "__proto__" then VNull
      else default VUndef (object_prototype !! key)
  | _ => VUndef
  end.

(** What the loop body asks of one entry. *)
Definition entry_met (response : val) (key expectedType : string) : Prop :=
  in_response response key = true ∧
  (expectedType = "any" ∨ typeof (response_member response key) = expectedType).

(** The loop [for (const key in expectedStructure)] over the entries of
    the expected structure (each key with its expected type name).  The
    entries of an object literal are its own properties, so
    [hasOwnProperty(key)] holds for each of them when it can be called;
    it cannot when the structure has an entry named [hasOwnProperty],
    whose value, a type name, is then what gets called. *)
Fixpoint for_in (entries : list (string * string)) (response : val)
    (expectedStructure : gmap string string) : completion :=
  match entries with
  | [] => Returns true
  | (key, expectedType) :: entries' =>
      match expectedStructure !! "hasOwnProperty" with
      | Some _ => ThrowsTypeError
      | None =>
          if negb (in_response response key) then Returns false
          else
            let actualType := typeof (response_member response key) in
            if negb (String.eqb expectedType "any")
               && negb (String.eqb actualType expectedType)
            then Returns false
            else for_in entries' response expectedStructure
      end
  end.

(** [validateResponseStructure(response, expectedStructure)]; the expected
    structure maps property names to type names.  The outcome of the loop
    does not depend on the order in which the entries are visited. *)
Definition validateResponseStructure (response : val)
    (expectedStructure : gmap string string) : completion :=
  if negb (truthy response) || negb (String.eqb (typeof response) "object")
  then Returns false
  else for_in (map_to_list expectedStructure) response expectedStructure.

End ApiHelpers.

(** ** Custom commands *)

Module Commands.

Definition defaultHeaders : obj :=
  list_to_map
    [ ("Content-Type", VStr "application/json");
      ("Accept", VStr "application/json");
      ("User-Agent", VStr "Cypress-Test-Runner") ].

(** The object literal [requestOptions] of [apiRequest]:
    [{ method, url, headers: { ...defaultHeaders, ...options.headers },
       failOnStatusCode: false, ...options }]. *)
Definition requestOptions (baseUrl method endpoint : string) (options : obj) : obj :=
  merge
    (list_to_map
       [ ("method", VStr (Str.toUpperCase method));
         ("url", VStr (baseUrl +:+ endpoint));
         ("headers",
           VObj (merge defaultHeaders (spread (get_prop options "headers"))));
         ("failOnStatusCode", VBool false) ])
    (spread (VObj options)).

(** [cy.apiRequest(method, endpoint, options = {})]. *)
Definition apiRequest (method endpoint : string) (options : option obj)
    : M Response :=
  let options := default ∅ options in
  let* baseUrl := env_apiBaseUrl in
  let url := baseUrl +:+ endpoint in
  let* _ := cy_log (LogApiRequest (Str.toUpperCase method) url) in
  let* _ := (if truthy (get_prop options "body")
             then cy_log (LogRequestBody (get_prop options "body"))
             else ret tt) in
  let* response := cy_request (requestOptions baseUrl method endpoint options) in
  let* _ := cy_log (LogResponseStatus (status response)) in
  let* _ := cy_log (LogResponseBody (body response)) in
  ret response.

(** *** validateResponseSchema *)

(** The schema argument: [status] a number, [properties] an object (its
    entries in [Object.keys] order), [requiredFields] an array of names;
    each may be left out. *)
Record Schema := mkSchema {
  schema_status : option Z;
  schema_properties : option (list (string * val));
  schema_requiredFields : option (list string)
}.

(** Outcome of a sequence of expectations: [None] when all passed,
    otherwise the error that was raised. *)
Definition Check := option error.

Definition and_then (a b : Check) : Check :=
  match a with
  | Some e => Some e
  | None => b
  end.

(** [l.forEach(f)] where [f] may raise. *)
Fixpoint forEach {A} (l : list A) (f : A → Check) : Check :=
  match l with
  | [] => None
  | x :: l' => and_then (f x) (forEach l' f)
  end.

Section Validate.

(** Properties visible on [Object(v)] for a value [v] that is neither an
    object literal nor null/undefined (strings, numbers, booleans,
    built-ins): a table of the host, taken as a parameter. *)
Variable boxed : val → obj.

(** [k in Object(v)]; [None] when [v] is null or undefined. *)
Definition has_property (v : val) (k : string) : option bool :=
  match v with
  | VUndef | VNull => None
  | VObj m => Some (has_prop m k)
  | _ => Some (bool_decide (is_Some (boxed v !! k)))
  end.

(** [v[k]].  On null or undefined the access is a [TypeError]; the
    validator only reaches an access after [have.property] passed on the
    same target, so that case is given [undefined] here. *)
Definition get (v : val) (k : string) : val :=
  match v with
  | VUndef | VNull => VUndef
  | VObj m => get_prop m k
  | _ => default VUndef (boxed v !! k)
  end.

(** [expect(target).to.have.property(name)]. *)
Definition expect_property (target : val) (name : string) : Check :=
  match has_property target name with
  | None => Some (AssertionError TargetNullOrUndefined)
  | Some true => None
  | Some false => Some (AssertionError (ExpectedProperty target name))
  end.

(** [expect(actual).to.equal(expected)] for a number [expected]. *)
Definition expect_equal (actual : val) (expected : Z) : Check :=
  match actual with
  | VNum z => if z =? expected then None
              else Some (AssertionError (ExpectedEqual actual (VNum expected)))
  | _ => Some (AssertionError (ExpectedEqual actual (VNum expected)))
  end.

(** [expect(v).to.not.be.null]. *)
Definition expect_not_null (v : val) : Check :=
  match v with
  | VNull => Some (AssertionError ExpectedNotNull)
  | _ => None
  end.

(** [expect(v).to.not.be.undefined]. *)
Definition expect_not_undefined (v : val) : Check :=
  match v with
  | VUndef => Some (AssertionError ExpectedNotUndefined)
  | _ => None
  end.

(** The three expectations on one required field. *)
Definition field_check (body : val) (field : string) : Check :=
  and_then (expect_property body field)
 (and_then (expect_not_null (get body field))
           (expect_not_undefined (get body field))).

(** [cy.validateResponseSchema(response, expectedSchema)]. *)
Definition validateResponseSchema (response : val) (expectedSchema : Schema)
    : Check :=
  and_then (expect_property response "status")
 (and_then (expect_property response "body")
 (and_then
    (match schema_status expectedSchema with
     | Some st =>
         if truthy (VNum st) then expect_equal (get response "status") st
         else None
     | None => None
     end)
 (and_then
    (match schema_properties expectedSchema with
     | Some properties =>
         forEach (map fst properties) (fun property =>
           expect_property (get response "body") property)
     | None => None
     end)
    (match schema_requiredFields expectedSchema with
     | Some requiredFields =>
         forEach requiredFields (fun field =>
           and_then (expect_property (get response "body") field)
          (and_then (expect_not_null (get (get response "body") field))
                    (expect_not_undefined (get (get response "body") field))))
     | None => None
     end)))).

End Validate.

(** The validator as a list: every expectation it can evaluate, in the
    order it evaluates them, each taken on its own.  The status is compared
    when the schema gives a non-zero one; a property counts as present when
    it is own or inherited. *)
Definition expectations (boxed : val → obj) (response : val)
    (expectedSchema : Schema) : list Check :=
  let body := get boxed response "body" in
  [ expect_property boxed response "status";
    expect_property boxed response "body" ]
  ++ match schema_status expectedSchema with
     | Some st => if st =? 0 then []
                  else [expect_equal (get boxed response "status") st]
     | None => []
     end
  ++ match schema_properties expectedSchema with
     | Some properties =>
         map (fun property => expect_property boxed body property)
             (map fst properties)
     | None => []
     end
  ++ match schema_requiredFields expectedSchema with
     | Some requiredFields =>
         flat_map (fun field =>
                     [ expect_property boxed body field;
                       expect_not_null (get boxed body field);
                       expect_not_undefined (get boxed body field) ])
                  requiredFields
     | None => []
     end.

(** The first failure of a list of outcomes, if any. *)
Definition first_failure (checks : list Check) : Check :=
  fold_right and_then None checks.

(** *** testRateLimit *)

(** A [cy.apiRequest(...).then(...)] put on the command queue by iteration
    [i] of the loop. *)
Inductive command :=
  | ApiRequestThen (i : Z) (method endpoint : string) (options : option obj).

(** The payload built for iteration [i] at time [now]. *)
Definition userData (now i : Z) : obj :=
  list_to_map
    [ ("userName", VStr ("rateLimit_" +:+ pretty now +:+ "_" +:+ pretty i));
      ("password", VStr ("RateTest" +:+ pretty i +:+ "123!")) ].

(** The synchronous loop [for (let i = 0; i < requestCount; i++)]: it only
    queues commands; [remaining] counts the iterations still to run. *)
Fixpoint enqueue_requests (remaining : nat) (i : Z) (endpoint method : string)
    : M (list command) :=
  match remaining with
  | O => ret []
  | S remaining' =>
      let* cmd :=
        (if String.eqb method "POST" && Str.includes endpoint "/user"
         then
           let* now := Date_now in
           ret (ApiRequestThen i "POST" endpoint
                  (Some {[ "body" := VObj (userData now i) ]}))
         else ret (ApiRequestThen i method endpoint None)) in
      let* rest := enqueue_requests remaining' (i + 1) endpoint method in
      ret (cmd :: rest)
  end.

(** The request options a queued command hands to [cy.request] when the
    base URL is [baseUrl]. *)
Definition request_of (baseUrl : string) (cmd : command) : obj :=
  match cmd with
  | ApiRequestThen _ method endpoint options =>
      requestOptions baseUrl method endpoint (default ∅ options)
  end.

(** The queue then runs in order; each callback pushes its response and
    logs it.  A failing command stops the run. *)
Fixpoint run_queue (queue : list command) (responses : list Response)
    : M (list Response) :=
  match queue with
  | [] => ret responses
  | ApiRequestThen i method endpoint options :: queue' =>
      let* response := apiRequest method endpoint options in
      let responses := (responses ++ [response])%list in
      let* _ := cy_log (LogRateLimitRequest (i + 1) (status response)) in
      run_queue queue' responses
  end.

(** The server answers every request, whatever the status. *)
Definition responding (w : World) : Prop :=
  ∀ n req, ∃ r, net w n req = Responded r.

(** A queued command that leaves [failOnStatusCode] alone. *)
Definition plain (cmd : command) : Prop :=
  match cmd with
  | ApiRequestThen _ _ _ options =>
      default ∅ options !! "failOnStatusCode" = None
  end.

Definition rate_limited (response : Response) : bool :=
  (status response =? 429) || (status response =? 503).

(** [cy.testRateLimit(endpoint, requestCount = 10, timeWindow = 1000,
    method = 'POST')]. *)
Definition testRateLimit (endpoint : string) (requestCount timeWindow : option Z)
    (method : option string) : M (list Response) :=
  let requestCount := default 10 requestCount in
  let timeWindow := default 1000 timeWindow in
  let method := default "POST" method in
  let* queue := enqueue_requests (Z.to_nat requestCount) 0 endpoint method in
  let* responses := run_queue queue [] in
  let rateLimitedResponses := List.filter rate_limited responses in
  let* _ := cy_log (LogRateLimitSummary (List.length rateLimitedResponses)
                                        requestCount) in
  ret responses.

End Commands.

(** ** Sample worlds and inputs *)

Module Samples.

(** The draws 0.5 and 0.25, and one with a longer base-36 text. *)
Definition draw_half : Draw := mkDraw "0.i" (fun k => k / 2).
Definition draw_quarter : Draw := mkDraw "0.9" (fun k => k / 4).
Definition draw_long : Draw := mkDraw "0.4fzyo82mvyr" (fun k => (k * 17) / 100).

(** A server that answers every request with status [st] and echoes the
    request body. *)
Definition respond_with (st : Z) : nat → obj → transport_result :=
  fun _ req => Responded (mkResponse st ∅ (default VNull (req !! "body"))).

(** A run started at 2024-10-27T03:33:20.123Z whose clock advances one
    millisecond per reading. *)
Definition ticking : World :=
  mkWorld (fun n => 1730000000123 + Z.of_nat n) 0 (fun _ => draw_long) 0
          "https://demoqa.com" (respond_with 201) [] [].

(** Two calls inside the same millisecond; the draws are 0.5 and 0.25. *)
Definition same_millisecond : World :=
  mkWorld (fun _ => 1730000000123) 0
          (fun n => if Nat.even n then draw_half else draw_quarter) 0
          "https://demoqa.com" (respond_with 201) [] [].

(** A server that answers 404 to everything, and a network that is down. *)
Definition not_found : World :=
  mkWorld (fun n => 1730000000123 + Z.of_nat n) 0 (fun _ => draw_long) 0
          "https://demoqa.com" (respond_with 404) [] [].

Definition unreachable : World :=
  mkWorld (fun n => 1730000000123 + Z.of_nat n) 0 (fun _ => draw_long) 0
          "https://demoqa.com" (fun _ _ => NoResponse ConnectionRefused) [] [].

(** A server that accepts two requests and then rate-limits. *)
Definition throttling : World :=
  mkWorld (fun n => 1730000000123 + Z.of_nat n) 0 (fun _ => draw_long) 0
          "https://demoqa.com"
          (fun n _ => Responded (mkResponse (if (n <? 2)%nat then 201 else 429)
                                            ∅ VNull))
          [] [].

Definition john : obj := {[ "firstName" := VStr "John" ]}.

Definition no_boxed : val → obj := fun _ => ∅.

(** The schema and the responses of the validator's scenario. *)
Definition created_with_id : Commands.Schema :=
  Commands.mkSchema (Some 201) None (Some ["id"]).

Definition response_with_id : val :=
  VObj {[ "status" := VNum 201; "body" := VObj {[ "id" := VStr "abc" ]} ]}.

Definition response_without_id : val :=
  VObj {[ "status" := VNum 201; "body" := VObj ∅ ]}.

(** Expected structures and a response for [validateResponseStructure]. *)
Definition user_structure : gmap string string :=
  {[ "userID" := "string"; "books" := "object"; "toString" := "function" ]}.

Definition userID_structure : gmap string string := {[ "userID" := "string" ]}.


Definition shadowing_structure : gmap string string :=
  {[ "hasOwnProperty" := "function" ]}.

Definition user_response : val :=
  VObj {[ "userID" := VStr "abc"; "books" := VObj ∅; "extra" := VNum 1 ]}.


(** Options that carry one header of the caller's. *)
Definition traced : obj :=
  {[ "headers" := VObj {[ "X-Trace" := VStr "1" ]} ]}.

(** Options that switch the status check back on. *)
Definition strict : obj := {[ "failOnStatusCode" := VBool true ]}.

End Samples.

(** * Properties *)

(** ** Facts about strings *)

Section StringFacts.

Implicit Types (a b c s : string) (p : ascii → bool) (n : nat).

Lemma app_cons (x : ascii) a b : String x a +:+ b = String x (a +:+ b).
Proof. reflexivity. Qed.

Lemma app_empty_l a : "" +:+ a = a.
Proof. reflexivity. Qed.

Lemma app_empty_r s : s +:+ "" = s.
Proof.
  induction s as [|x s IH]; [done|]. by rewrite app_cons, IH.
Qed.

Lemma app_assoc a b c : (a +:+ b) +:+ c = a +:+ (b +:+ c).
Proof.
  induction a as [|x a IH]; [done|]. by rewrite !app_cons, IH.
Qed.

Lemma length_app a b :
  String.length (a +:+ b) = (String.length a + String.length b)%nat.
Proof.
  induction a as [|x a IH]; [done|]. rewrite app_cons. simpl. by rewrite IH.
Qed.

Lemma len_app a b : Str.len (a +:+ b) = Str.len a + Str.len b.
Proof. unfold Str.len. rewrite length_app. lia. Qed.

Lemma len_nonneg s : 0 ≤ Str.len s.
Proof. unfold Str.len. lia. Qed.

Lemma app_inv_tail a b c : a +:+ c = b +:+ c → a = b.
Proof.
  revert b. induction a as [|x a IH]; intros [|y b] H.
  - done.
  - apply (f_equal String.length) in H.
    rewrite app_empty_l, length_app in H. simpl in H. lia.
  - apply (f_equal String.length) in H.
    rewrite app_empty_l, length_app in H. simpl in H. lia.
  - rewrite !app_cons in H. injection H as -> H. f_equal. by apply IH.
Qed.

Lemma has_app p a b : Str.has p (a +:+ b) = Str.has p a || Str.has p b.
Proof.
  induction a as [|x a IH]; [done|]. rewrite app_cons. simpl.
  rewrite IH. by destruct (p x).
Qed.

Lemma take_length_ge n s : (String.length s ≤ n)%nat → Str.take n s = s.
Proof.
  revert n. induction s as [|x s IH]; intros [|n] H; simpl in *; try done.
  - lia.
  - f_equal. apply IH. lia.
Qed.

Lemma length_take n s :
  String.length (Str.take n s) = Nat.min n (String.length s).
Proof.
  revert n. induction s as [|x s IH]; intros [|n]; simpl; try done.
  by rewrite IH.
Qed.

Lemma take_app_ge n a b :
  (String.length a ≤ n)%nat →
  Str.take n (a +:+ b) = a +:+ Str.take (n - String.length a) b.
Proof.
  revert n. induction a as [|x a IH]; intros n H.
  - rewrite !app_empty_l. simpl. by rewrite Nat.sub_0_r.
  - simpl in H. destruct n as [|n]; [lia|].
    rewrite !app_cons. simpl. f_equal. apply IH. lia.
Qed.

Lemma drop_app_le n a b :
  (n ≤ String.length a)%nat → Str.drop n (a +:+ b) = Str.drop n a +:+ b.
Proof.
  revert n. induction a as [|x a IH]; intros [|n] H; simpl in H; try done.
  - lia.
  - rewrite app_cons. simpl. apply IH. lia.
Qed.

Lemma length_drop n s :
  String.length (Str.drop n s) = (String.length s - n)%nat.
Proof.
  revert n. induction s as [|x s IH]; intros [|n]; simpl; try done.
Qed.

(** [substring(0, n)] keeps the first [n] characters. *)
Lemma substring_0 (n : Z) s :
  0 ≤ n ≤ Str.len s → Str.substring 0 n s = Str.take (Z.to_nat n) s.
Proof.
  intros H. unfold Str.substring.
  replace (Z.to_nat (Z.min (Z.max 0 0) (Str.len s))) with 0%nat by lia.
  replace (Z.to_nat (Z.min (Z.max n 0) (Str.len s))) with (Z.to_nat n) by lia.
  rewrite Nat.max_0_l, Nat.min_0_l, Nat.sub_0_r. done.
Qed.

(** A string that ends in a character of class [p] keeps one in each of
    its non-empty tails. *)
Lemma has_slice_last p k a x :
  p x = true → (0 < k)%nat →
  Str.has p (Str.slice_last k (a +:+ String x "")) = true.
Proof.
  intros Hx Hk. unfold Str.slice_last.
  rewrite drop_app_le by (rewrite length_app; simpl; lia).
  rewrite has_app. simpl. rewrite Hx. by rewrite orb_true_r.
Qed.

Lemma length_slice_last k s :
  (String.length (Str.slice_last k s) ≤ k)%nat.
Proof. unfold Str.slice_last. rewrite length_drop. lia. Qed.

End StringFacts.

(** ** Facts about the decimal text of integers *)

Section PrettyFacts.

Lemma pretty_N_char_digit x : Str.is_digit (pretty_N_char x) = true.
Proof. unfold pretty_N_char. by repeat case_match. Qed.

(** The accumulator of [pretty_N_go] is a suffix of its result. *)
Lemma pretty_N_go_acc (x : N) (s : string) :
  pretty_N_go x s = pretty_N_go x "" +:+ s.
Proof.
  revert s. induction (N.lt_wf_0 x) as [x _ IH]; intros s.
  destruct (decide (x = 0)%N) as [->|Hx].
  - by rewrite !pretty_N_go_0.
  - rewrite !(pretty_N_go_step x) by lia.
    assert (x `div` 10 < x)%N as Hlt by (apply N.div_lt; lia).
    rewrite (IH _ Hlt (String _ s)), (IH _ Hlt (String _ "")).
    by rewrite app_assoc.
Qed.

Lemma pretty_N_ends_digit (x : N) :
  ∃ a c, pretty x = a +:+ String c "" ∧ Str.is_digit c = true.
Proof.
  unfold pretty, pretty_N. case_decide as Hx.
  - by exists "", "0"%char.
  - rewrite pretty_N_go_step by lia. rewrite pretty_N_go_acc.
    eexists _, _. split; [done|]. apply pretty_N_char_digit.
Qed.

Lemma pretty_N_go_digits (x : N) (s : string) :
  Str.all Str.is_digit s = true → Str.all Str.is_digit (pretty_N_go x s) = true.
Proof.
  revert s. induction (N.lt_wf_0 x) as [x _ IH]; intros s Hs.
  destruct (decide (x = 0)%N) as [->|Hx].
  - by rewrite pretty_N_go_0.
  - rewrite pretty_N_go_step by lia. apply IH; [apply N.div_lt; lia|].
    simpl. by rewrite pretty_N_char_digit, Hs.
Qed.

Lemma pretty_N_digits (x : N) : Str.all Str.is_digit (pretty x) = true.
Proof.
  unfold pretty, pretty_N. case_decide; [done|]. by apply pretty_N_go_digits.
Qed.

(** The text of an integer ends in a digit. *)
Lemma pretty_Z_ends_digit (z : Z) :
  ∃ a c, pretty z = a +:+ String c "" ∧ Str.is_digit c = true.
Proof.
  destruct z as [|q|q]; unfold pretty, pretty_Z.
  - by exists "", "0"%char.
  - apply (pretty_N_ends_digit (N.pos q)).
  - destruct (pretty_N_ends_digit (N.pos q)) as (a & c & E & Hc).
    exists ("-" +:+ a), c. split; [|done].
    unfold pretty, pretty_positive. rewrite E. done.
Qed.

(** It is made of digits and at most a leading minus sign. *)
Lemma pretty_Z_chars (z : Z) : Str.all Str.sign_or_digit (pretty z) = true.
Proof.
  assert (∀ s, Str.all Str.is_digit s = true → Str.all Str.sign_or_digit s = true)
    as weaken.
  { induction s as [|x s IH]; simpl; [done|].
    intros [Hx Hs]%andb_true_iff. unfold Str.sign_or_digit at 1.
    rewrite Hx. simpl. by apply IH. }
  destruct z as [|q|q]; unfold pretty, pretty_Z.
  - done.
  - apply weaken, (pretty_N_digits (N.pos q)).
  - simpl. apply weaken, (pretty_N_digits (N.pos q)).
Qed.

End PrettyFacts.

(** ** TestDataGenerator: the password *)

Section PasswordFacts.

Import TestDataGenerator.

Lemma pad_password_unfold fuel bound password w :
  pad_password fuel bound password w =
  if Str.len password <? bound then
    match fuel with
    | O => OutOfFuel
    | S fuel' =>
        pad_password fuel' bound
          (password +:+ "a" +:+ pretty (scaled (rng w (rng_draws w)) 10) +:+ "!")
          (after_draw w)
    end
  else Ok password w.
Proof.
  destruct fuel; simpl; destruct (Str.len password <? bound); reflexivity.
Qed.

(** The loop only appends, and leaves once the bound is reached. *)
Lemma pad_password_extends fuel bound password w p w' :
  pad_password fuel bound password w = Ok p w' →
  (∃ ext, p = password +:+ ext) ∧ bound ≤ Str.len p.
Proof.
  revert password w. induction fuel as [|fuel IH]; intros password w;
    rewrite pad_password_unfold; destruct (Z.ltb_spec (Str.len password) bound);
    try done.
  - intros [= <- <-]. split; [|done]. exists "". by rewrite app_empty_r.
  - intros [[ext ->] Hb]%IH. split; [|done].
    eexists. by rewrite app_assoc.
  - intros [= <- <-]. split; [|done]. exists "". by rewrite app_empty_r.
Qed.

(** Every iteration makes the password longer, so [bound] iterations are
    always enough. *)
Lemma pad_password_returns fuel bound password w :
  bound - Str.len password ≤ Z.of_nat fuel →
  ∃ p w', pad_password fuel bound password w = Ok p w'.
Proof.
  revert password w. induction fuel as [|fuel IH]; intros password w Hfuel;
    rewrite pad_password_unfold; destruct (Z.ltb_spec (Str.len password) bound);
    eauto; [lia|].
  apply IH. rewrite !len_app.
  pose proof (len_nonneg (pretty (scaled (rng w (rng_draws w)) 10))).
  change (Str.len "a") with 1. change (Str.len "!") with 1. lia.
Qed.

Lemma pad_password_no_throw fuel bound password w e w' :
  pad_password fuel bound password w ≠ Throw e w'.
Proof.
  revert password w. induction fuel as [|fuel IH]; intros password w;
    rewrite pad_password_unfold; destruct (Str.len password <? bound);
    try done.
Qed.

Lemma generateSecurePassword_unfold fuel length options w :
  generateSecurePassword fuel length options w =
  let L := default 12 length in
  let timestamp := Str.slice_last 4 (pretty (clock w (clock_reads w))) in
  let randomSuffix := Str.substring 2 4 (text36 (rng w (rng_draws w))) in
  match pad_password fuel (Z.max 8 L)
          ("Test" +:+ timestamp +:+ "!" +:+ randomSuffix)
          (after_draw (after_clock w)) with
  | Ok p w' =>
      Ok (if (Str.len p >? L) && (L >? 8) then Str.substring 0 L p else p) w'
  | Throw e w' => Throw e w'
  | OutOfFuel => OutOfFuel
  end.
Proof. reflexivity. Qed.

(** The four-digit timestamp fragment: one to four characters, one of
    them a digit. *)
Lemma timestamp_fragment (now : Z) :
  let timestamp := Str.slice_last 4 (pretty now) in
  Str.has Str.is_digit timestamp = true ∧ (String.length timestamp ≤ 4)%nat.
Proof.
  split; [|apply length_slice_last].
  destruct (pretty_Z_ends_digit now) as (a & c & -> & Hc).
  apply has_slice_last; [done | lia].
Qed.

(** The policy on the string that leaves the loop and the final trim. *)
Lemma trimmed_password_policy (L : Z) (timestamp rest : string) :
  8 ≤ L →
  Str.has Str.is_digit timestamp = true →
  (String.length timestamp ≤ 4)%nat →
  let padded := "Test" +:+ timestamp +:+ "!" +:+ rest in
  Z.max 8 L ≤ Str.len padded →
  let p := if (Str.len padded >? L) && (L >? 8)
           then Str.substring 0 L padded else padded in
  Str.has Str.is_upper p = true ∧ Str.has Str.is_lower p = true ∧
  Str.has Str.is_digit p = true ∧ Str.has Str.is_special p = true ∧
  (8 < L → Str.len p = L) ∧ (L ≤ 8 → 8 ≤ Str.len p).
Proof.
  intros HL Hdigit Hts padded Hlen p.
  set (core := "Test" +:+ timestamp +:+ "!").
  assert (padded = core +:+ rest) as Hpadded.
  { unfold padded, core. by rewrite !app_assoc. }
  assert (String.length core ≤ 9)%nat as Hcore.
  { unfold core. rewrite !length_app. simpl. lia. }
  assert (∀ tail, Str.has Str.is_upper (core +:+ tail) = true ∧
                  Str.has Str.is_lower (core +:+ tail) = true ∧
                  Str.has Str.is_digit (core +:+ tail) = true ∧
                  Str.has Str.is_special (core +:+ tail) = true) as Hclasses.
  { intros tail. unfold core. rewrite !has_app, Hdigit.
    change (Str.has Str.is_upper "Test") with true.
    change (Str.has Str.is_lower "Test") with true.
    change (Str.has Str.is_special "!") with true.
    rewrite ?orb_true_r, ?orb_true_l. done. }
  destruct (Z.gtb_spec L 8) as [Hgt|Hle].
  - assert (p = Str.take (Z.to_nat L) padded) as ->.
    { unfold p. destruct (Z.gtb_spec (Str.len padded) L).
      - simpl. apply substring_0. lia.
      - simpl. symmetry. apply take_length_ge. unfold Str.len in *. lia. }
    rewrite Hpadded, take_app_ge by lia.
    destruct (Hclasses (Str.take (Z.to_nat L - String.length core) rest))
      as (? & ? & ? & ?).
    repeat split; try done; [|lia].
    intros _. rewrite <- take_app_ge, <- Hpadded by lia.
    unfold Str.len in *. rewrite length_take. lia.
  - assert (p = padded) as ->.
    { unfold p. by rewrite andb_false_r. }
    rewrite Hpadded. destruct (Hclasses rest) as (? & ? & ? & ?).
    repeat split; try done; [lia|]. rewrite <- Hpadded. lia.
Qed.

End PasswordFacts.

Section PasswordPolicy.

Import TestDataGenerator.

Lemma generateSecurePassword_returns length options w :
  ∃ fuel p w', generateSecurePassword fuel length options w = Ok p w'.
Proof.
  exists (Z.to_nat (Z.max 8 (default 12 length))).
  rewrite generateSecurePassword_unfold. cbv zeta.
  edestruct (pad_password_returns (Z.to_nat (Z.max 8 (default 12 length))))
    as (p & w' & ->); [|eauto].
  pose proof (len_nonneg ("Test" +:+
    Str.slice_last 4 (pretty (clock w (clock_reads w))) +:+ "!" +:+
    Str.substring 2 4 (text36 (rng w (rng_draws w))))). lia.
Qed.

Lemma generateSecurePassword_no_throw fuel length options w e w' :
  generateSecurePassword fuel length options w ≠ Throw e w'.
Proof.
  rewrite generateSecurePassword_unfold. cbv zeta.
  destruct (pad_password _ _ _ _) eqn:E; try done.
  by apply pad_password_no_throw in E.
Qed.

Lemma generateSecurePassword_shape fuel length options w p w' :
  8 ≤ default 12 length →
  generateSecurePassword fuel length options w = Ok p w' →
  Str.has Str.is_upper p = true ∧ Str.has Str.is_lower p = true ∧
  Str.has Str.is_digit p = true ∧ Str.has Str.is_special p = true ∧
  (8 < default 12 length → Str.len p = default 12 length) ∧
  (default 12 length ≤ 8 → 8 ≤ Str.len p).
Proof.
  intros HL. rewrite generateSecurePassword_unfold. cbv zeta.
  destruct (pad_password _ _ _ _) as [padded w''| |] eqn:E; [|done..].
  intros [= <- <-].
  apply pad_password_extends in E as [[ext ->] Hbound].
  destruct (timestamp_fragment (clock w (clock_reads w))) as [Hdigit Hlen].
  rewrite !app_assoc in *.
  by apply trimmed_password_policy.
Qed.

End PasswordPolicy.

(** C3. For every length L >= 8, [generateSecurePassword(L)] returns (with
    enough loop iterations allowed) a string that contains an uppercase
    letter, a lowercase letter, a digit and a non-alphanumeric character;
    its length is exactly L when L > 8 and at least 8 when L <= 8. *)
Theorem generateSecurePassword_policy (L : Z) (options : option obj) (w : World) :
  8 ≤ L →
  (∃ fuel p w',
      TestDataGenerator.generateSecurePassword fuel (Some L) options w = Ok p w') ∧
  (∀ fuel p w',
      TestDataGenerator.generateSecurePassword fuel (Some L) options w = Ok p w' →
      Str.has Str.is_upper p = true ∧ Str.has Str.is_lower p = true ∧
      Str.has Str.is_digit p = true ∧ Str.has Str.is_special p = true ∧
      (8 < L → Str.len p = L) ∧ (L ≤ 8 → 8 ≤ Str.len p)).
Proof.
  intros HL. split.
  - apply generateSecurePassword_returns.
  - intros fuel p w' E.
    by apply (generateSecurePassword_shape fuel (Some L) options w p w').
Qed.

Lemma generateSecurePassword_policy_witness :
  8 ≤ 20 ∧
  ∃ fuel p w',
    TestDataGenerator.generateSecurePassword fuel (Some 20) None Samples.ticking
      = Ok p w' ∧
    Str.has Str.is_special p = true ∧ Str.len p = 20.
Proof.
  split; [lia|].
  destruct (generateSecurePassword_policy 20 None Samples.ticking ltac:(lia))
    as [(fuel & p & w' & E) Hpolicy].
  exists fuel, p, w'. split; [exact E|].
  destruct (Hpolicy fuel p w' E) as (_ & _ & _ & Hspecial & Hexact & _).
  split; [exact Hspecial | apply Hexact; lia].
Defined.

Example generateSecurePassword_20 :
  value (TestDataGenerator.generateSecurePassword 3 (Some 20) None Samples.ticking)
  = Some "Test0123!4fa1!a1!a1!".
Proof. vm_compute. reflexivity. Qed.

Example generateSecurePassword_default :
  value (TestDataGenerator.generateSecurePassword 3 None None Samples.ticking)
  = Some "Test0123!4fa".
Proof. vm_compute. reflexivity. Qed.

Example generateSecurePassword_8 :
  value (TestDataGenerator.generateSecurePassword 3 (Some 8) None Samples.ticking)
  = Some "Test0123!4f".
Proof. vm_compute. reflexivity. Qed.

(** C10. [generateSecurePassword] never reads its [options] argument: with
    the same length, clock and random source, any two options values give
    the same outcome (same password, same state afterwards). *)
Theorem generateSecurePassword_ignores_options
    (fuel : nat) (length : option Z) (options1 options2 : option obj) (w : World) :
  TestDataGenerator.generateSecurePassword fuel length options1 w =
  TestDataGenerator.generateSecurePassword fuel length options2 w.
Proof. by rewrite !generateSecurePassword_unfold. Qed.

(** ** TestDataGenerator: the other generators *)

Section GeneratorFacts.

Import TestDataGenerator.

Lemma generateUniqueEmail_unfold prefix domain w :
  generateUniqueEmail prefix domain w =
  Ok (default "test" prefix +:+ "+" +:+ pretty (clock w (clock_reads w)) +:+ "+"
        +:+ Str.substring_from 7 (text36 (rng w (rng_draws w)))
        +:+ "@" +:+ default "example.com" domain)
     (after_draw (after_clock w)).
Proof. reflexivity. Qed.

Lemma generateCompanyName_unfold w :
  generateCompanyName w =
  Ok (pick prefixes (scaled (rng w (rng_draws w)) 7) +:+ " " +:+
      pick suffixes (scaled (rng (after_draw w) (rng_draws (after_draw w))) 7))
     (after_draw (after_draw w)).
Proof. reflexivity. Qed.

Lemma generatePhoneNumber_returns format w :
  ∃ phone, generatePhoneNumber format w =
             Ok phone (if String.eqb (default "US" format) "US"
                       then after_draw (after_draw (after_draw w))
                       else after_draw (after_draw w)) ∧
           phone ≠ "".
Proof.
  unfold generatePhoneNumber.
  destruct (String.eqb (default "US" format) "US");
    [|destruct (String.eqb (default "US" format) "UK")];
    eexists; (split; [reflexivity|]); by rewrite app_cons.
Qed.

(** The record [generateUserData] builds around the password. *)
Lemma generateUserData_unfold fuel overrides w :
  generateUserData fuel overrides w =
  match generateSecurePassword fuel None None (after_draw (after_clock w)) with
  | Ok password w2 =>
      match generateUniqueEmail None None w, generateCompanyName w2,
            generatePhoneNumber None (after_draw (after_draw w2)) with
      | Ok email _, Ok companyName _, Ok phone w' =>
          Ok (merge
                (list_to_map
                   [ ("email", VStr email);
                     ("password", VStr password);
                     ("confirmPassword", VNull);
                     ("firstName",
                       or_else (get_prop (default ∅ overrides) "firstName")
                               (VStr "TestUser"));
                     ("lastName",
                       or_else (get_prop (default ∅ overrides) "lastName")
                               (VStr "Automated"));
                     ("companyName", VStr companyName);
                     ("phone", VStr phone) ])
                (spread (VObj (default ∅ overrides))))
             w'
      | _, _, _ => OutOfFuel
      end
  | Throw e w' => Throw e w'
  | OutOfFuel => OutOfFuel
  end.
Proof.
  unfold generateUserData, Host.bind at 1.
  rewrite generateUniqueEmail_unfold. unfold Host.bind at 1.
  destruct (generateSecurePassword _ _ _ _); reflexivity.
Qed.

End GeneratorFacts.

(** ** TestDataGenerator: a length that is not a whole number *)

Section NumericLength.

Import TestDataGenerator.

Lemma num_lt_true (x y : Q) : num_lt x y = true ↔ (x < y)%Q.
Proof.
  unfold num_lt. rewrite negb_true_iff. split.
  - intros E. apply Qnot_le_lt. intros H. apply Qle_bool_iff in H. congruence.
  - intros H. destruct (Qle_bool y x) eqn:E; [|done].
    apply Qle_bool_iff in E. by apply Qlt_not_le in H.
Qed.

Lemma num_lt_false (x y : Q) : num_lt x y = false ↔ (y <= x)%Q.
Proof.
  unfold num_lt. rewrite negb_false_iff. apply Qle_bool_iff.
Qed.

(** Against a whole number, [<] on numbers is [<] against the ceiling. *)
Lemma num_lt_inject (n : Z) (q : Q) :
  num_lt (inject_Z n) q = (n <? Qceiling q).
Proof.
  destruct (Z.ltb_spec n (Qceiling q)) as [H|H].
  - apply num_lt_true. apply Qnot_le_lt. intros E.
    apply Qceiling_resp_le in E. rewrite Qceiling_Z in E. lia.
  - apply num_lt_false. eapply Qle_trans; [apply Qle_ceiling|].
    by rewrite <- Zle_Qle.
Qed.

Lemma num_lt_whole (a b : Z) : num_lt (inject_Z a) (inject_Z b) = (a <? b).
Proof. by rewrite num_lt_inject, Qceiling_Z. Qed.

Lemma Math_max_whole (a b : Z) :
  Qceiling (Math_max (inject_Z a) (inject_Z b)) = Z.max a b.
Proof.
  unfold Math_max. destruct (Qle_bool (inject_Z a) (inject_Z b)) eqn:E.
  - apply Qle_bool_iff in E. rewrite <- Zle_Qle in E. rewrite Qceiling_Z. lia.
  - assert (¬ a ≤ b) as H.
    { intros H. rewrite Zle_Qle in H. apply Qle_bool_iff in H. congruence. }
    rewrite Qceiling_Z. lia.
Qed.

Lemma Math_max_ge (x y : Q) : (x <= Math_max x y)%Q ∧ (y <= Math_max x y)%Q.
Proof.
  unfold Math_max. destruct (Qle_bool x y) eqn:E.
  - apply Qle_bool_iff in E. split; [done | apply Qle_refl].
  - split; [apply Qle_refl|]. apply Qlt_le_weak, Qnot_le_lt.
    intros H. apply Qle_bool_iff in H. congruence.
Qed.

Lemma Math_max_r (x y : Q) : (x < y)%Q → Math_max x y = y.
Proof.
  intros H. unfold Math_max.
  by rewrite (proj2 (Qle_bool_iff x y) (Qlt_le_weak _ _ H)).
Qed.

Lemma to_integer_whole (n : Z) : to_integer (inject_Z n) = n.
Proof. unfold to_integer. simpl. apply Z.quot_1_r. Qed.

Lemma to_integer_floor (q : Q) : (0 <= q)%Q → to_integer q = Qfloor q.
Proof.
  destruct q as [n d]. unfold Qle, to_integer, Qfloor. simpl. intros H.
  apply Z.quot_div_nonneg; lia.
Qed.

(** The loop with a bound that is not whole runs as the loop with the
    bound rounded up. *)
Lemma pad_password_num_ceiling fuel (bound : Q) password w :
  pad_password_num fuel bound password w =
  pad_password fuel (Qceiling bound) password w.
Proof.
  revert password w. induction fuel as [|fuel IH]; intros password w; simpl;
    rewrite num_lt_inject; destruct (Str.len password <? Qceiling bound);
    try reflexivity.
  unfold Host.bind. simpl. apply IH.
Qed.

Lemma generateSecurePassword_num_unfold fuel length options w :
  generateSecurePassword_num fuel length options w =
  let L := default (inject_Z 12) length in
  let timestamp := Str.slice_last 4 (pretty (clock w (clock_reads w))) in
  let randomSuffix := Str.substring 2 4 (text36 (rng w (rng_draws w))) in
  match pad_password fuel (Qceiling (Math_max (inject_Z 8) L))
          ("Test" +:+ timestamp +:+ "!" +:+ randomSuffix)
          (after_draw (after_clock w)) with
  | Ok p w' =>
      Ok (if num_lt L (inject_Z (Str.len p)) && num_lt (inject_Z 8) L
          then Str.substring 0 (to_integer L) p else p) w'
  | Throw e w' => Throw e w'
  | OutOfFuel => OutOfFuel
  end.
Proof.
  cbv zeta. rewrite <- pad_password_num_ceiling. reflexivity.
Qed.

(** On a whole-number length the two definitions of the generator
    coincide. *)
Lemma generateSecurePassword_num_whole fuel (length : option Z) options w :
  generateSecurePassword_num fuel (inject_Z <$> length) options w =
  generateSecurePassword fuel length options w.
Proof.
  rewrite generateSecurePassword_num_unfold, generateSecurePassword_unfold.
  cbv zeta.
  assert (default (inject_Z 12) (inject_Z <$> length)
          = inject_Z (default 12 length)) as -> by by destruct length.
  rewrite Math_max_whole.
  destruct (pad_password _ _ _ _) as [p w'| |]; [|done..].
  rewrite !num_lt_whole, to_integer_whole.
  by rewrite (Z.gtb_ltb (Str.len p)), (Z.gtb_ltb _ 8).
Qed.

Lemma generateSecurePassword_num_returns length options w :
  ∃ fuel p w', generateSecurePassword_num fuel length options w = Ok p w'.
Proof.
  set (bound := Qceiling (Math_max (inject_Z 8) (default (inject_Z 12) length))).
  exists (Z.to_nat bound).
  rewrite generateSecurePassword_num_unfold. cbv zeta. fold bound.
  edestruct (pad_password_returns (Z.to_nat bound) bound)
    as (p & w' & ->); [|eauto].
  pose proof (len_nonneg ("Test" +:+
    Str.slice_last 4 (pretty (clock w (clock_reads w))) +:+ "!" +:+
    Str.substring 2 4 (text36 (rng w (rng_draws w))))). lia.
Qed.

Lemma generateSecurePassword_num_no_throw fuel length options w e w' :
  generateSecurePassword_num fuel length options w ≠ Throw e w'.
Proof.
  rewrite generateSecurePassword_num_unfold. cbv zeta.
  destruct (pad_password _ _ _ _) eqn:E; try done.
  by apply pad_password_no_throw in E.
Qed.

End NumericLength.

Section NumericTrim.

Import TestDataGenerator.

(** What the final trim does for a length that need not be whole: above 8
    it keeps the first floor(length) characters, otherwise everything. *)
Lemma numeric_trim (L : Q) (padded : string) :
  Qceiling (Math_max (inject_Z 8) L) ≤ Str.len padded →
  let p := if num_lt L (inject_Z (Str.len padded)) && num_lt (inject_Z 8) L
           then Str.substring 0 (to_integer L) padded else padded in
  8 ≤ Str.len padded ∧
  ((inject_Z 8 < L)%Q ∧ 8 ≤ Qfloor L ≤ Str.len padded ∧
     p = Str.take (Z.to_nat (Qfloor L)) padded
   ∨ (L <= inject_Z 8)%Q ∧ p = padded).
Proof.
  intros Hlen p.
  assert (8 ≤ Str.len padded) as H8.
  { etrans; [|exact Hlen]. rewrite <- (Qceiling_Z 8) at 1.
    apply Qceiling_resp_le, Math_max_ge. }
  split; [exact H8|].
  destruct (num_lt (inject_Z 8) L) eqn:E8.
  - left. apply num_lt_true in E8. split; [exact E8|].
    rewrite Math_max_r in Hlen by done.
    assert (8 ≤ Qfloor L) as Hfloor.
    { rewrite <- (Qfloor_Z 8) at 1. by apply Qfloor_resp_le, Qlt_le_weak. }
    assert (Qfloor L ≤ Qceiling L) as Hfc.
    { rewrite Zle_Qle. apply Qle_floor_ceiling. }
    assert (to_integer L = Qfloor L) as Hint.
    { apply to_integer_floor. apply Qlt_le_weak.
      eapply Qlt_trans; [|exact E8]. done. }
    split; [lia|]. unfold p. rewrite andb_true_r, Hint.
    destruct (num_lt L (inject_Z (Str.len padded))) eqn:Elen.
    + apply substring_0. lia.
    + apply num_lt_false in Elen. apply Qfloor_resp_le in Elen.
      rewrite Qfloor_Z in Elen. symmetry. apply take_length_ge.
      unfold Str.len in *. lia.
  - right. apply num_lt_false in E8. split; [exact E8|].
    unfold p. by rewrite andb_false_r.
Qed.

Lemma trimmed_num_policy (L : Q) (timestamp rest : string) :
  Str.has Str.is_digit timestamp = true →
  (String.length timestamp ≤ 4)%nat →
  let padded := "Test" +:+ timestamp +:+ "!" +:+ rest in
  Qceiling (Math_max (inject_Z 8) L) ≤ Str.len padded →
  let p := if num_lt L (inject_Z (Str.len padded)) && num_lt (inject_Z 8) L
           then Str.substring 0 (to_integer L) padded else padded in
  8 ≤ Str.len p ∧
  Str.has Str.is_upper p = true ∧ Str.has Str.is_lower p = true ∧
  Str.has Str.is_digit p = true ∧
  ((inject_Z 8 < L)%Q → Str.len p = Qfloor L) ∧
  ((L <= inject_Z 8)%Q ∨ (inject_Z 9 <= L)%Q →
   Str.has Str.is_special p = true ∧
   ∃ rest', p = "Test" +:+ timestamp +:+ "!" +:+ rest') ∧
  ((inject_Z 8 < L)%Q → (L < inject_Z 9)%Q → String.length timestamp = 4%nat →
   p = "Test" +:+ timestamp).
Proof.
  intros Hdigit Hts padded Hlen p.
  set (head := "Test" +:+ timestamp).
  assert (padded = head +:+ ("!" +:+ rest)) as Hpadded.
  { unfold padded, head. by rewrite !app_assoc. }
  assert (String.length head = 4 + String.length timestamp)%nat as Hhead.
  { unfold head. by rewrite length_app. }
  assert (∀ tail, Str.has Str.is_upper (head +:+ tail) = true ∧
                  Str.has Str.is_lower (head +:+ tail) = true ∧
                  Str.has Str.is_digit (head +:+ tail) = true) as Hclasses.
  { intros tail. unfold head. rewrite !has_app, Hdigit.
    change (Str.has Str.is_upper "Test") with true.
    change (Str.has Str.is_lower "Test") with true.
    rewrite ?orb_true_r, ?orb_true_l. done. }
  destruct (numeric_trim L padded Hlen)
    as [H8 [(Hgt & [Hfloor Hfit] & Hp) | (Hle & Hp)]]; fold p in Hp.
  - assert (Str.len p = Qfloor L) as Hlenp.
    { rewrite Hp. unfold Str.len in *. rewrite length_take. lia. }
    assert (p = head +:+ Str.take (Z.to_nat (Qfloor L) - String.length head)
                           ("!" +:+ rest)) as Hp'.
    { rewrite Hp, Hpadded. apply take_app_ge. lia. }
    destruct (Hclasses (Str.take (Z.to_nat (Qfloor L) - String.length head)
                          ("!" +:+ rest))) as (Hu & Hl & Hd).
    rewrite <- Hp' in Hu, Hl, Hd.
    split_and!; try done; [lia| |].
    + intros [Hle|H9]; [by apply Qlt_not_le in Hgt|].
      assert (9 ≤ Qfloor L) as Hfloor9.
      { rewrite <- (Qfloor_Z 9) at 1. by apply Qfloor_resp_le. }
      assert (p = (head +:+ "!") +:+
                  Str.take (Z.to_nat (Qfloor L) - String.length (head +:+ "!")) rest)
        as ->.
      { rewrite Hp, Hpadded, <- app_assoc. apply take_app_ge.
        rewrite length_app, Hhead. change (String.length "!") with 1%nat. lia. }
      split.
      * rewrite !has_app. change (Str.has Str.is_special "!") with true.
        by rewrite ?orb_true_r, ?orb_true_l.
      * eexists. unfold head. by rewrite !app_assoc.
    + intros _ H9 Hts4.
      assert (Qfloor L < 9) as Hfloor9.
      { rewrite Zlt_Qlt. eapply Qle_lt_trans; [apply Qfloor_le | exact H9]. }
      rewrite Hp'. replace (Z.to_nat (Qfloor L) - String.length head)%nat
        with 0%nat by lia.
      simpl. apply app_empty_r.
  - rewrite Hp. destruct (Hclasses ("!" +:+ rest)) as (Hu & Hl & Hd).
    rewrite <- Hpadded in Hu, Hl, Hd.
    split_and!; try done.
    + intros Hgt. by apply Qlt_not_le in Hgt.
    + intros _. split; [|by exists rest].
      unfold padded. rewrite !has_app.
      change (Str.has Str.is_special "!") with true.
      by rewrite ?orb_true_r, ?orb_true_l.
    + intros Hgt. by apply Qlt_not_le in Hgt.
Qed.

Lemma generateSecurePassword_num_shape fuel length options w p w' :
  let L := default (inject_Z 12) length in
  let timestamp := Str.slice_last 4 (pretty (clock w (clock_reads w))) in
  generateSecurePassword_num fuel length options w = Ok p w' →
  8 ≤ Str.len p ∧
  Str.has Str.is_upper p = true ∧ Str.has Str.is_lower p = true ∧
  Str.has Str.is_digit p = true ∧
  ((inject_Z 8 < L)%Q → Str.len p = Qfloor L) ∧
  ((L <= inject_Z 8)%Q ∨ (inject_Z 9 <= L)%Q →
   Str.has Str.is_special p = true ∧
   ∃ rest, p = "Test" +:+ timestamp +:+ "!" +:+ rest) ∧
  ((inject_Z 8 < L)%Q → (L < inject_Z 9)%Q → String.length timestamp = 4%nat →
   p = "Test" +:+ timestamp).
Proof.
  intros L timestamp. rewrite generateSecurePassword_num_unfold. cbv zeta.
  destruct (pad_password _ _ _ _) as [padded w''| |] eqn:E; [|done..].
  intros [= <- <-].
  apply pad_password_extends in E as [[ext ->] Hbound].
  destruct (timestamp_fragment (clock w (clock_reads w))) as [Hdigit Hlen].
  rewrite !app_assoc in *.
  by apply trimmed_num_policy.
Qed.

End NumericTrim.

(** ** TestDataGenerator: the e-mail address *)

Section EmailFacts.

Import TestDataGenerator.

Lemma pretty_Z_no_plus (z : Z) : Str.has Str.is_plus (pretty z) = false.
Proof.
  pose proof (pretty_Z_chars z) as H.
  induction (pretty z) as [|c s IH]; [done|]. simpl in *.
  apply andb_true_iff in H as [Hc Hs]. rewrite (IH Hs), orb_false_r.
  unfold Str.sign_or_digit, Str.is_plus in *.
  destruct (Ascii.eqb_spec c "+") as [->|]; [|done].
  vm_compute in Hc. discriminate.
Qed.

(** Two texts free of ['+'] that are followed by a ['+'] can be told
    apart from what follows. *)
Lemma split_at_plus (a b x y : string) :
  Str.has Str.is_plus a = false → Str.has Str.is_plus b = false →
  a +:+ "+" +:+ x = b +:+ "+" +:+ y → a = b ∧ x = y.
Proof.
  revert b. induction a as [|c a IH]; intros [|d b] Ha Hb H;
    rewrite ?app_cons, ?app_empty_l in H.
  - injection H as ->. done.
  - injection H as <- _. vm_compute in Hb. discriminate.
  - injection H as -> _. vm_compute in Ha. discriminate.
  - injection H as -> H. simpl in Ha, Hb.
    apply orb_false_iff in Ha as [_ Ha]. apply orb_false_iff in Hb as [_ Hb].
    destruct (IH b Ha Hb H) as [-> ->]. done.
Qed.

Lemma email_text_inj (prefix domain : string) (t1 t2 : Z) (s1 s2 : string) :
  prefix +:+ "+" +:+ pretty t1 +:+ "+" +:+ s1 +:+ "@" +:+ domain =
  prefix +:+ "+" +:+ pretty t2 +:+ "+" +:+ s2 +:+ "@" +:+ domain →
  t1 = t2 ∧ s1 = s2.
Proof.
  intros H. apply (inj (String.append prefix)) in H.
  rewrite !app_cons, !app_empty_l in H. injection H as H.
  apply split_at_plus in H as [Ht Hs]; try apply pretty_Z_no_plus.
  split; [by apply (inj pretty) in Ht|].
  by apply app_inv_tail in Hs.
Qed.

Lemma all_drop p n s : Str.all p s = true → Str.all p (Str.drop n s) = true.
Proof.
  revert n. induction s as [|c s IH]; intros [|n] H; simpl in *; try done.
  apply andb_true_iff in H as [_ H]. by apply IH.
Qed.

Lemma all_take p n s : Str.all p s = true → Str.all p (Str.take n s) = true.
Proof.
  revert n. induction s as [|c s IH]; intros [|n] H; simpl in *; try done.
  apply andb_true_iff in H as [-> H]. by apply IH.
Qed.

Lemma drop_length s : Str.drop (String.length s) s = "".
Proof. induction s as [|c s IH]; simpl; done. Qed.

(** What [toString(36).substring(7)] keeps of a draw is alphanumeric. *)
Lemma random_suffix_base36 (d : Draw) :
  draw_ok d → Str.all is_base36 (Str.substring_from 7 (text36 d)) = true.
Proof.
  intros [[->|(digits & -> & _ & Hdigits)] _]; [done|].
  unfold Str.substring_from, Str.substring. apply all_take.
  set (s := "0." +:+ digits).
  destruct (decide (7 ≤ Str.len s)) as [Hlen|Hlen].
  - replace (Z.to_nat (Z.min (Z.max 7 0) (Str.len s))) with 7%nat by lia.
    replace (Z.to_nat (Z.min (Z.max (Str.len s) 0) (Str.len s)))
      with (String.length s) by (unfold Str.len; lia).
    rewrite Nat.min_l by (unfold Str.len in Hlen; lia).
    subst s. rewrite !app_cons, app_empty_l.
    change (Str.drop 7 (String "0" (String "." digits))) with (Str.drop 5 digits).
    by apply all_drop.
  - replace (Z.to_nat (Z.min (Z.max 7 0) (Str.len s)))
      with (String.length s) by (unfold Str.len in *; lia).
    replace (Z.to_nat (Z.min (Z.max (Str.len s) 0) (Str.len s)))
      with (String.length s) by (unfold Str.len; lia).
    rewrite Nat.min_id, drop_length. done.
Qed.

End EmailFacts.

(** C8, as the code has it.  [generateUniqueEmail] always returns
    prefix + "+" + the clock reading + "+" + a suffix cut from the base-36
    text of a random draw + "@" + domain; the suffix is alphanumeric.  Two
    calls with the same prefix and domain return the same string exactly
    when they read the same clock value and draw the same suffix, so the
    results are distinct whenever the clock readings or the suffixes
    differ. *)
Theorem generateUniqueEmail_distinct_iff
    (prefix domain : option string) (w1 w2 : World) :
  let stamp w := clock w (clock_reads w) in
  let suffix w := Str.substring_from 7 (text36 (rng w (rng_draws w))) in
  ∃ e1 w1' e2 w2',
    TestDataGenerator.generateUniqueEmail prefix domain w1 = Ok e1 w1' ∧
    TestDataGenerator.generateUniqueEmail prefix domain w2 = Ok e2 w2' ∧
    e1 = default "test" prefix +:+ "+" +:+ pretty (stamp w1) +:+ "+"
           +:+ suffix w1 +:+ "@" +:+ default "example.com" domain ∧
    (e1 = e2 ↔ stamp w1 = stamp w2 ∧ suffix w1 = suffix w2) ∧
    (draw_ok (rng w1 (rng_draws w1)) → Str.all is_base36 (suffix w1) = true).
Proof.
  intros stamp suffix. rewrite !generateUniqueEmail_unfold.
  eexists _, _, _, _.
  split; [reflexivity|]. split; [reflexivity|]. split; [reflexivity|].
  split; [split|].
  - intros H%email_text_inj. exact H.
  - intros [Ht Hs]. subst stamp suffix. simpl in *. by rewrite Ht, Hs.
  - apply random_suffix_base36.
Qed.

Lemma draw_long_ok : draw_ok Samples.draw_long.
Proof.
  split.
  - right. exists "4fzyo82mvyr". by vm_compute.
  - intros k Hk. simpl. split.
    + apply Z.div_pos; lia.
    + apply Z.div_lt_upper_bound; lia.
Defined.

Lemma generateUniqueEmail_distinct_iff_witness :
  ∃ e1 w1' e2 w2',
    TestDataGenerator.generateUniqueEmail None None Samples.ticking = Ok e1 w1' ∧
    TestDataGenerator.generateUniqueEmail None None
      (after_draw (after_clock Samples.ticking)) = Ok e2 w2' ∧
    e1 ≠ e2 ∧
    Str.all is_base36
      (Str.substring_from 7 (text36 (rng Samples.ticking 0))) = true.
Proof.
  destruct (generateUniqueEmail_distinct_iff None None Samples.ticking
              (after_draw (after_clock Samples.ticking)))
    as (e1 & w1' & e2 & w2' & E1 & E2 & _ & Hiff & Hsuffix).
  exists e1, w1', e2, w2'.
  split; [exact E1|]. split; [exact E2|]. split.
  - intros Heq. apply Hiff in Heq as [Hstamp _]. vm_compute in Hstamp.
    discriminate.
  - apply Hsuffix. exact draw_long_ok.
Defined.

(** C8, counterexample.  Two consecutive calls inside one millisecond
    whose draws are 0.5 and 0.25 (base-36 texts "0.i" and "0.9", both too
    short to leave a suffix) return the same address. *)
Lemma generateUniqueEmail_collision :
  Samples.draw_half ≠ Samples.draw_quarter ∧
  TestDataGenerator.generateUniqueEmail None None Samples.same_millisecond
    = Ok "test+1730000000123+@example.com"
         (after_draw (after_clock Samples.same_millisecond)) ∧
  TestDataGenerator.generateUniqueEmail None None
      (after_draw (after_clock Samples.same_millisecond))
    = Ok "test+1730000000123+@example.com"
         (after_draw (after_clock
            (after_draw (after_clock Samples.same_millisecond)))).
Proof.
  split; [discriminate|]. split; vm_compute; reflexivity.
Qed.

(** ** TestDataGenerator: the user record *)

Section UserDataFacts.

Import TestDataGenerator.

Lemma app_nonempty_l (a b : string) : a ≠ "" → a +:+ b ≠ "".
Proof. destruct a; [done|]. by rewrite app_cons. Qed.

Lemma app_nonempty_r (a b : string) : b ≠ "" → a +:+ b ≠ "".
Proof.
  intros Hb H. apply (f_equal String.length) in H.
  rewrite length_app in H. destruct b; [done|]. simpl in H. lia.
Qed.

Lemma generateUserData_result fuel overrides w user w' :
  generateUserData fuel overrides w = Ok user w' →
  ∃ email password companyName phone,
    email ≠ "" ∧ password ≠ "" ∧ companyName ≠ "" ∧ phone ≠ "" ∧
    user = default ∅ overrides ∪
           user_literal email password companyName phone
             (or_else (get_prop (default ∅ overrides) "firstName")
                      (VStr "TestUser"))
             (or_else (get_prop (default ∅ overrides) "lastName")
                      (VStr "Automated")).
Proof.
  rewrite generateUserData_unfold.
  destruct (generateSecurePassword _ _ _ _) as [password w2| |] eqn:E;
    [|done..].
  rewrite generateUniqueEmail_unfold, generateCompanyName_unfold.
  destruct (generatePhoneNumber_returns None (after_draw (after_draw w2)))
    as (phone & -> & Hphone).
  intros [= <- <-]. eexists _, password, _, phone. split_and!.
  5: (unfold merge, spread, user_literal; reflexivity).
  - by apply app_nonempty_l.
  - apply generateSecurePassword_shape in E as (_ & _ & _ & _ & Hlen & _);
      [|simpl; lia].
    intros ->. specialize (Hlen ltac:(simpl; lia)).
    vm_compute in Hlen. discriminate.
  - by apply app_nonempty_r, app_nonempty_l.
  - done.
Qed.

Lemma user_literal_text email password companyName phone firstName lastName k :
  k ∈ ["email"; "password"; "companyName"; "phone"] →
  ∃ s, user_literal email password companyName phone firstName lastName !! k
       = Some (VStr s) ∧
       s ∈ [email; password; companyName; phone].
Proof.
  intros Hk. repeat (apply elem_of_cons in Hk as [->|Hk]);
    [..|by apply elem_of_nil in Hk]; eexists; (split; [reflexivity|]);
    repeat (apply elem_of_cons; first [by left | right]).
Qed.

Lemma user_literal_keys email password companyName phone firstName lastName k :
  k ∉ ["email"; "password"; "confirmPassword"; "firstName"; "lastName";
       "companyName"; "phone"] →
  user_literal email password companyName phone firstName lastName !! k = None.
Proof. intros Hk. by apply not_elem_of_list_to_map_1. Qed.

End UserDataFacts.

Section UserDataClaims.

Import TestDataGenerator.

Lemma generateUserData_returns overrides w :
  ∃ fuel user w', generateUserData fuel overrides w = Ok user w'.
Proof.
  destruct (generateSecurePassword_returns None None (after_draw (after_clock w)))
    as (fuel & p & w2 & E).
  exists fuel. rewrite generateUserData_unfold, E.
  rewrite generateUniqueEmail_unfold, generateCompanyName_unfold.
  destruct (generatePhoneNumber_returns None (after_draw (after_draw w2)))
    as (phone & -> & _). eauto.
Qed.

Lemma get_prop_absent (o : obj) (k : string) :
  o !! k = None → object_prototype !! k = None → get_prop o k = VUndef.
Proof. unfold get_prop. by intros -> ->. Qed.

(** Field by field: what the caller gave is what comes back, and a field
    the caller left out holds its default. *)
Lemma generateUserData_fields fuel (overrides : obj) w user w' :
  generateUserData fuel (Some overrides) w = Ok user w' →
  (∀ k v, overrides !! k = Some v → user !! k = Some v) ∧
  (overrides !! "confirmPassword" = None →
     user !! "confirmPassword" = Some VNull) ∧
  (∀ k, k ∈ ["email"; "password"; "firstName"; "lastName"; "companyName";
             "phone"] →
        overrides !! k = None → ∃ v, user !! k = Some v ∧ nonempty_text v) ∧
  (∀ k, k ∉ ["email"; "password"; "confirmPassword"; "firstName"; "lastName";
             "companyName"; "phone"] →
        overrides !! k = None → user !! k = None).
Proof.
  intros (email & password & companyName & phone & He & Hp & Hc & Hph & ->)
    %generateUserData_result.
  simpl default. split_and!.
  - intros k v Hk. by apply lookup_union_Some_l.
  - intros Hk. rewrite lookup_union_r by done. reflexivity.
  - intros k Hk Hnone. rewrite lookup_union_r by done.
    assert (object_prototype !! "firstName" = None) as HfirstName
      by (vm_compute; reflexivity).
    assert (object_prototype !! "lastName" = None) as HlastName
      by (vm_compute; reflexivity).
    assert (k ∈ ["email"; "password"; "companyName"; "phone"] ∨
            k = "firstName" ∨ k = "lastName") as [Htext|[->| ->]].
    { repeat (apply elem_of_cons in Hk as [->|Hk]);
        [..|by apply elem_of_nil in Hk]; auto;
        left; repeat (apply elem_of_cons; first [by left | right]). }
    + destruct (user_literal_text email password companyName phone
                  (or_else (get_prop overrides "firstName") (VStr "TestUser"))
                  (or_else (get_prop overrides "lastName") (VStr "Automated"))
                  k Htext) as (s & -> & Hs).
      eexists. split; [done|]. exists s. split; [done|].
      repeat (apply elem_of_cons in Hs as [->|Hs]);
        [..|by apply elem_of_nil in Hs]; done.
    + rewrite (get_prop_absent overrides "firstName") by done.
      eexists. split; [reflexivity|]. by exists "TestUser".
    + rewrite (get_prop_absent overrides "lastName") by done.
      eexists. split; [reflexivity|]. by exists "Automated".
  - intros k Hk Hnone. rewrite lookup_union_r by done.
    by apply user_literal_keys.
Qed.

End UserDataClaims.

(** ** TestDataGenerator: totality *)

Section AnyOverrides.

Import TestDataGenerator.

Lemma generateUserData_no_throw fuel overrides w e w' :
  generateUserData fuel overrides w ≠ Throw e w'.
Proof.
  rewrite generateUserData_unfold.
  destruct (generateSecurePassword _ _ _ _) as [p w2| |] eqn:E.
  - rewrite generateUniqueEmail_unfold, generateCompanyName_unfold.
    destruct (generatePhoneNumber_returns None (after_draw (after_draw w2)))
      as (phone & -> & _). done.
  - by apply generateSecurePassword_no_throw in E.
  - done.
Qed.

(** Apart from [null], every value is handled as an overrides object. *)
Lemma generateUserData_val_object (overrides : val) :
  overrides ≠ VNull →
  ∃ props, ∀ fuel,
    generateUserData_val fuel overrides = generateUserData fuel props.
Proof.
  intros Hnull. destruct overrides; try done; simpl; eauto.
Qed.

Lemma generateUserData_val_null fuel w :
  generateUserData_val fuel VNull w = Throw (TypeError VNull "firstName") w.
Proof. reflexivity. Qed.

End AnyOverrides.

(** C9, as the code has it.  On arguments of the documented kinds every
    generator returns a value and none raises, in every state of the clock
    and the random source: [generateUniqueEmail] and [generatePhoneNumber]
    on text (or nothing), [generateSecurePassword] on every finite length,
    whole or not (the padding loop finishes for each of them), and
    [generateUserData] on every overrides value except [null].  On [null],
    [generateUserData] raises a TypeError before it generates anything. *)
Theorem generators_total :
  (∀ prefix domain w,
     ∃ email w', TestDataGenerator.generateUniqueEmail prefix domain w = Ok email w') ∧
  (∀ (length : option Q) options w,
     (∃ fuel p w',
        TestDataGenerator.generateSecurePassword_num fuel length options w
          = Ok p w') ∧
     (∀ fuel, ¬ ∃ e w',
        TestDataGenerator.generateSecurePassword_num fuel length options w
          = Throw e w')) ∧
  (∀ w, ∃ name w', TestDataGenerator.generateCompanyName w = Ok name w') ∧
  (∀ format w,
     ∃ phone w', TestDataGenerator.generatePhoneNumber format w = Ok phone w') ∧
  (∀ (overrides : val) w,
     overrides ≠ VNull →
     (∃ fuel user w',
        TestDataGenerator.generateUserData_val fuel overrides w = Ok user w') ∧
     (∀ fuel, ¬ ∃ e w',
        TestDataGenerator.generateUserData_val fuel overrides w = Throw e w')) ∧
  (∀ fuel w,
     TestDataGenerator.generateUserData_val fuel VNull w
       = Throw (TypeError VNull "firstName") w).
Proof.
  split_and!.
  - intros prefix domain w. rewrite generateUniqueEmail_unfold. eauto.
  - intros length options w. split.
    + apply generateSecurePassword_num_returns.
    + intros fuel (e & w' & H).
      by apply generateSecurePassword_num_no_throw in H.
  - intros w. rewrite generateCompanyName_unfold. eauto.
  - intros format w.
    destruct (generatePhoneNumber_returns format w) as (phone & -> & _). eauto.
  - intros overrides w Hnull. split.
    + destruct (generateUserData_val_object overrides Hnull) as [props Hval].
      destruct (generateUserData_returns props w) as (fuel & user & w' & E).
      exists fuel, user, w'. by rewrite Hval.
    + intros fuel (e & w' & H).
      destruct (generateUserData_val_object overrides Hnull) as [props Hval].
      rewrite Hval in H. by apply generateUserData_no_throw in H.
  - intros fuel w. apply generateUserData_val_null.
Qed.

Lemma generators_total_witness :
  VStr "ab" ≠ VNull ∧
  (∃ fuel user w',
     TestDataGenerator.generateUserData_val fuel (VStr "ab") Samples.ticking
       = Ok user w') ∧
  ∃ fuel p w',
    TestDataGenerator.generateSecurePassword_num fuel (Some (17 # 2)) None
      Samples.ticking = Ok p w'.
Proof.
  destruct generators_total as (_ & Hpassword & _ & _ & Huser & _).
  split; [discriminate|]. split.
  - exact (proj1 (Huser (VStr "ab") Samples.ticking ltac:(discriminate))).
  - exact (proj1 (Hpassword (Some (17 # 2)) None Samples.ticking)).
Defined.

(** C9, counterexample.  [generateUserData(null)] returns nothing: reading
    [overrides.firstName] raises a TypeError. *)
Lemma generateUserData_null_raises :
  value (TestDataGenerator.generateUserData_val 3 VNull Samples.ticking) = None ∧
  raised (TestDataGenerator.generateUserData_val 3 VNull Samples.ticking)
    = Some (TypeError VNull "firstName").
Proof. split; reflexivity. Qed.

(** A string for overrides is not an error: its characters become
    fields "0", "1", ... of the record. *)
Example generateUserData_of_text :
  (λ user : obj, (user !! "0", user !! "1", user !! "firstName")) <$>
    value (TestDataGenerator.generateUserData_val 3 (VStr "ab") Samples.ticking)
  = Some (Some (VStr "a"), Some (VStr "b"), Some (VStr "TestUser")).
Proof. vm_compute. reflexivity. Qed.

(** C5, as the code has it.  [generateUserData(overrides)] returns an object
    in which every field named in [overrides] holds the override value
    (the overrides are spread last).  A field the caller leaves out holds
    its default: [confirmPassword] is [null], and [email], [password],
    [firstName], [lastName], [companyName] and [phone] are non-empty
    strings; there are no other fields.  So for [{firstName: "John"}]
    the result has [firstName = "John"], [confirmPassword = null] and
    non-empty text everywhere else. *)
Theorem generateUserData_overrides_win (overrides : obj) (w : World) :
  (∃ fuel user w',
     TestDataGenerator.generateUserData fuel (Some overrides) w = Ok user w') ∧
  (∀ fuel user w',
     TestDataGenerator.generateUserData fuel (Some overrides) w = Ok user w' →
     (∀ k v, overrides !! k = Some v → user !! k = Some v) ∧
     (overrides !! "confirmPassword" = None →
        user !! "confirmPassword" = Some VNull) ∧
     (∀ k, k ∈ ["email"; "password"; "firstName"; "lastName"; "companyName";
                "phone"] →
           overrides !! k = None → ∃ v, user !! k = Some v ∧ nonempty_text v) ∧
     (∀ k, k ∉ ["email"; "password"; "confirmPassword"; "firstName";
                "lastName"; "companyName"; "phone"] →
           overrides !! k = None → user !! k = None)).
Proof.
  split; [apply generateUserData_returns|].
  intros fuel user w'. apply generateUserData_fields.
Qed.

Lemma generateUserData_overrides_win_witness :
  ∃ fuel user w',
    TestDataGenerator.generateUserData fuel (Some Samples.john) Samples.ticking
      = Ok user w' ∧
    user !! "firstName" = Some (VStr "John") ∧
    user !! "confirmPassword" = Some VNull ∧
    (∃ v, user !! "email" = Some v ∧ nonempty_text v) ∧
    user !! "nickname" = None.
Proof.
  destruct (generateUserData_overrides_win Samples.john Samples.ticking)
    as [(fuel & user & w' & E) Hfields].
  destruct (Hfields fuel user w' E) as (Hover & Hconfirm & Htext & Hnone).
  exists fuel, user, w'. split; [exact E|].
  split; [apply Hover; reflexivity|].
  split; [apply Hconfirm; reflexivity|].
  split.
  - apply Htext; [|reflexivity]. apply elem_of_cons. left. reflexivity.
  - apply Hnone; [|reflexivity]. vm_compute. intros H.
    repeat (apply elem_of_cons in H as [H|H]; [discriminate H|]).
    by apply elem_of_nil in H.
Defined.

(** C5, counterexample.  For [{firstName: "John"}] the result has a field
    other than [firstName] whose value is not a non-empty default:
    [confirmPassword] is [null]. *)
Lemma generateUserData_john_confirmPassword_null :
  let user : obj :=
    list_to_map
      [ ("email", VStr "test+1730000000123+82mvyr@example.com");
        ("password", VStr "Test0124!4fa");
        ("confirmPassword", VNull);
        ("firstName", VStr "John");
        ("lastName", VStr "Automated");
        ("companyName", VStr "Global Systems");
        ("phone", VStr "+1-253-253-2530") ] in
  value (TestDataGenerator.generateUserData 3 (Some Samples.john) Samples.ticking)
    = Some user ∧
  user !! "firstName" = Some (VStr "John") ∧
  user !! "confirmPassword" = Some VNull ∧
  ¬ nonempty_text VNull.
Proof.
  split; [vm_compute; reflexivity|].
  split; [vm_compute; reflexivity|].
  split; [vm_compute; reflexivity|].
  by intros (s & [=] & _).
Qed.

(** ** ApiHelpers: the malformed-payload catalogue *)

Section CatalogueFacts.

Import ApiHelpers.

Lemma templates_truthy type v : templates !! type = Some v → truthy v = true.
Proof.
  intros H. apply elem_of_list_to_map_2 in H.
  repeat (apply elem_of_cons in H as [[= -> ->]|H]); try done.
  by apply elem_of_nil in H.
Qed.

(** A defined tag returns its template. *)
Lemma createMalformedData_defined type v :
  templates !! type = Some v → createMalformedData type = v.
Proof.
  intros H. unfold createMalformedData, get_prop at 1, or_else.
  rewrite H. by rewrite (templates_truthy type v H).
Qed.

(** A tag that is neither defined nor a member of [Object.prototype]
    returns the [emptyObject] template. *)
Lemma createMalformedData_fallback type :
  templates !! type = None → object_prototype !! type = None →
  createMalformedData type = VObj ∅.
Proof.
  intros H1 H2. unfold createMalformedData.
  rewrite (get_prop_absent templates type H1 H2).
  vm_compute. reflexivity.
Qed.

Lemma object_prototype_truthy k v :
  object_prototype !! k = Some v → truthy v = true.
Proof.
  intros H. apply elem_of_list_to_map_2 in H.
  repeat (apply elem_of_cons in H as [[= -> ->]|H]); try done.
  by apply elem_of_nil in H.
Qed.

(** A tag that names a member of [Object.prototype] returns that member. *)
Lemma createMalformedData_inherited type v :
  templates !! type = None → object_prototype !! type = Some v →
  truthy v = true → createMalformedData type = v.
Proof.
  intros H1 H2 Hv. unfold createMalformedData, get_prop at 1, or_else.
  by rewrite H1, H2, Hv.
Qed.

(** The lookup, case by case. *)
Lemma createMalformedData_lookup type :
  createMalformedData type =
  match templates !! type with
  | Some template => template
  | None =>
      match object_prototype !! type with
      | Some member => member
      | None => VObj ∅
      end
  end.
Proof.
  destruct (templates !! type) as [template|] eqn:H1.
  - by apply createMalformedData_defined.
  - destruct (object_prototype !! type) as [member|] eqn:H2.
    + apply createMalformedData_inherited; [done..|].
      by apply (object_prototype_truthy type).
    + by apply createMalformedData_fallback.
Qed.

Example createMalformedData_missingPassword :
  createMalformedData "missingPassword"
    = VObj {[ "userName" := VStr "validUser" ]} ∧
  ({[ "userName" := VStr "validUser" ]} : obj) !! "password" = None.
Proof. split; vm_compute; reflexivity. Qed.

Example createMalformedData_typo :
  createMalformedData "misingPassword" = VObj ∅.
Proof. vm_compute. reflexivity. Qed.

End CatalogueFacts.

(** C4, on the failing input.  The tag "constructor" is not one of the
    catalogue's tags, yet the lookup does not fall back to the
    [emptyObject] template: [templates[type]] finds the member that every
    object literal inherits and returns it.  In general the lookup returns
    the template of a defined tag, the inherited member for a tag that
    names one, and the [emptyObject] template for every other tag. *)
Theorem createMalformedData_inherited_tag :
  (ApiHelpers.templates !! "constructor" = None ∧
   ApiHelpers.createMalformedData "constructor" = VNative "Object" ∧
   ApiHelpers.createMalformedData "constructor" ≠ VObj ∅ ∧
   ApiHelpers.createMalformedData "toString" = VNative "toString") ∧
  ∀ type,
    ApiHelpers.createMalformedData type =
    match ApiHelpers.templates !! type with
    | Some template => template
    | None =>
        match object_prototype !! type with
        | Some member => member
        | None => VObj ∅
        end
    end.
Proof.
  split; [|apply createMalformedData_lookup].
  split; [vm_compute; reflexivity|].
  split; [vm_compute; reflexivity|].
  split; [vm_compute; discriminate|].
  vm_compute. reflexivity.
Qed.

(** ** apiRequest *)

Section ApiRequestFacts.

Import Commands.

Lemma apiRequest_unfold method endpoint options w :
  apiRequest method endpoint options w =
  let o := default ∅ options in
  let req := requestOptions (apiBaseUrl w) method endpoint o in
  let w1 := after_log (LogApiRequest (Str.toUpperCase method)
                         (apiBaseUrl w +:+ endpoint)) w in
  let w2 := if truthy (get_prop o "body")
            then after_log (LogRequestBody (get_prop o "body")) w1 else w1 in
  match fail_on_status req with
  | None => Throw (InvalidOption "failOnStatusCode") w2
  | Some strict =>
      match net w (List.length (sent w)) req with
      | NoResponse why => Throw (TransportError why) (after_send req w2)
      | Responded r =>
          if strict && negb (ok_status (status r))
          then Throw (StatusCodeError (status r)) (after_send req w2)
          else Ok r (after_log (LogResponseBody (body r))
                       (after_log (LogResponseStatus (status r))
                          (after_send req w2)))
      end
  end.
Proof.
  unfold apiRequest, Host.bind, env_apiBaseUrl, cy_log, cy_request. cbv zeta.
  destruct (truthy (get_prop (default ∅ options) "body")); simpl;
    destruct (fail_on_status _); try reflexivity;
    destruct (net w _ _); try reflexivity;
    destruct (_ && _); reflexivity.
Qed.

(** The spread of [options] comes last in the literal, so an entry of
    [options] replaces the entry of the same name written before it. *)
Lemma requestOptions_override baseUrl method endpoint (options : obj) k v :
  options !! k = Some v →
  requestOptions baseUrl method endpoint options !! k = Some v.
Proof. intros H. unfold requestOptions, merge, spread. by apply lookup_union_Some_l. Qed.

Lemma requestOptions_default baseUrl method endpoint (options : obj) k :
  options !! k = None →
  requestOptions baseUrl method endpoint options !! k =
  (list_to_map
     [ ("method", VStr (Str.toUpperCase method));
       ("url", VStr (baseUrl +:+ endpoint));
       ("headers",
         VObj (merge defaultHeaders (spread (get_prop options "headers"))));
       ("failOnStatusCode", VBool false) ] : obj) !! k.
Proof. intros H. unfold requestOptions, merge at 1, spread at 1. by rewrite lookup_union_r. Qed.

(** Without a [headers] entry in [options] the request carries exactly the
    default headers. *)
Lemma requestOptions_headers_default baseUrl method endpoint (options : obj) :
  options !! "headers" = None →
  requestOptions baseUrl method endpoint options !! "headers"
    = Some (VObj defaultHeaders).
Proof.
  intros H. rewrite requestOptions_default by done.
  rewrite (get_prop_absent options "headers" H) by (vm_compute; reflexivity).
  unfold merge, spread. rewrite (left_id_L ∅ (∪)). reflexivity.
Qed.

Lemma fail_on_status_off baseUrl method endpoint (options : obj) :
  options !! "failOnStatusCode" = None ∨
  options !! "failOnStatusCode" = Some (VBool false) →
  fail_on_status (requestOptions baseUrl method endpoint options) = Some false.
Proof.
  unfold fail_on_status. intros [H|H].
  - rewrite requestOptions_default by done. reflexivity.
  - by rewrite (requestOptions_override _ _ _ _ _ _ H).
Qed.

Lemma apiRequest_responded method endpoint options w r :
  fail_on_status (requestOptions (apiBaseUrl w) method endpoint (default ∅ options))
    = Some false →
  net w (List.length (sent w))
      (requestOptions (apiBaseUrl w) method endpoint (default ∅ options))
    = Responded r →
  ∃ w', apiRequest method endpoint options w = Ok r w' ∧
        sent w' = (sent w ++
          [requestOptions (apiBaseUrl w) method endpoint (default ∅ options)])%list ∧
        net w' = net w ∧ apiBaseUrl w' = apiBaseUrl w ∧
        clock w' = clock w ∧ clock_reads w' = clock_reads w.
Proof.
  intros Hoff Hnet. rewrite apiRequest_unfold. cbv zeta. rewrite Hoff, Hnet.
  simpl. eexists. split; [reflexivity|].
  by destruct (truthy (get_prop (default ∅ options) "body")).
Qed.

Lemma apiRequest_no_response method endpoint options w why :
  fail_on_status (requestOptions (apiBaseUrl w) method endpoint (default ∅ options))
    = Some false →
  net w (List.length (sent w))
      (requestOptions (apiBaseUrl w) method endpoint (default ∅ options))
    = NoResponse why →
  ∃ w', apiRequest method endpoint options w = Throw (TransportError why) w'.
Proof.
  intros Hoff Hnet. rewrite apiRequest_unfold. cbv zeta. rewrite Hoff, Hnet.
  eauto.
Qed.

End ApiRequestFacts.

(** C1, on the failing input.  When the caller passes
    [{headers: {"X-Trace": "1"}}], the merged header set is computed but the
    spread of [options] that closes the literal puts the caller's [headers]
    object in its place: the request goes out with the caller's header
    alone, and the default [Accept], [Content-Type] and [User-Agent] are
    not on it. *)
Theorem apiRequest_drops_default_headers :
  let req := Commands.requestOptions "https://demoqa.com" "get" "/x" Samples.traced in
  issued (Commands.apiRequest "get" "/x" (Some Samples.traced) Samples.ticking)
    = [req] ∧
  req !! "headers" = Some (VObj {[ "X-Trace" := VStr "1" ]}) ∧
  merge Commands.defaultHeaders {[ "X-Trace" := VStr "1" ]} !! "Accept"
    = Some (VStr "application/json") ∧
  ({[ "X-Trace" := VStr "1" ]} : obj) !! "Accept" = None.
Proof.
  split; [vm_compute; reflexivity|].
  split; [vm_compute; reflexivity|].
  split; vm_compute; reflexivity.
Qed.

(** C2, as the code has it.  When the options bag leaves [failOnStatusCode]
    alone (or sets it to false), [apiRequest] returns the response for
    every status code the server answers with, 4xx and 5xx included, and
    raises exactly when the transport fails, passing that failure on. *)
Theorem apiRequest_returns_any_status
    (method endpoint : string) (options : option obj) (w : World) :
  default ∅ options !! "failOnStatusCode" = None ∨
  default ∅ options !! "failOnStatusCode" = Some (VBool false) →
  let req := Commands.requestOptions (apiBaseUrl w) method endpoint
               (default ∅ options) in
  (∀ r, net w (List.length (sent w)) req = Responded r →
        ∃ w', Commands.apiRequest method endpoint options w = Ok r w') ∧
  (∀ why, net w (List.length (sent w)) req = NoResponse why →
        ∃ w', Commands.apiRequest method endpoint options w
              = Throw (TransportError why) w').
Proof.
  intros Hoff%(fail_on_status_off (apiBaseUrl w) method endpoint) req. split.
  - intros r Hnet.
    destruct (apiRequest_responded method endpoint options w r Hoff Hnet)
      as (w' & E & _). eauto.
  - intros why Hnet. by apply apiRequest_no_response.
Qed.

Lemma apiRequest_returns_any_status_witness :
  (∃ r w', Commands.apiRequest "GET" "/missing" None Samples.not_found = Ok r w' ∧
           status r = 404) ∧
  (∃ w', Commands.apiRequest "GET" "/missing" None Samples.unreachable
         = Throw (TransportError ConnectionRefused) w').
Proof.
  split.
  - destruct (apiRequest_returns_any_status "GET" "/missing" None
                Samples.not_found (or_introl eq_refl)) as [Hresp _].
    destruct (Hresp (mkResponse 404 ∅ VNull)) as (w' & E);
      [vm_compute; reflexivity|].
    exists (mkResponse 404 ∅ VNull), w'. split; [exact E | reflexivity].
  - destruct (apiRequest_returns_any_status "GET" "/missing" None
                Samples.unreachable (or_introl eq_refl)) as [_ Hfail].
    apply Hfail. reflexivity.
Defined.

(** C2, counterexample.  With [{failOnStatusCode: true}] in the options
    bag a 404 answer makes [apiRequest] raise, although the transport
    delivered a response. *)
Lemma apiRequest_strict_raises_on_404 :
  net Samples.not_found 0
      (Commands.requestOptions "https://demoqa.com" "GET" "/missing" Samples.strict)
    = Responded (mkResponse 404 ∅ VNull) ∧
  raised (Commands.apiRequest "GET" "/missing" (Some Samples.strict)
            Samples.not_found)
    = Some (StatusCodeError 404).
Proof. split; vm_compute; reflexivity. Qed.

(** ** validateResponseSchema *)

Section ValidateFacts.

Import Commands.

Variable boxed : val → obj.

Lemma first_failure_app (a b : list Check) :
  first_failure (a ++ b) = and_then (first_failure a) (first_failure b).
Proof.
  induction a as [|[e|] a IH]; simpl; [done..|]. exact IH.
Qed.

Lemma forEach_first_failure {A} (l : list A) (f : A → Check) :
  forEach l f = first_failure (map f l).
Proof. induction l as [|x l IH]; simpl; [done|]. by rewrite IH. Qed.

Lemma forEach_fields_first_failure (l : list string) (f g h : string → Check) :
  forEach l (fun x => and_then (f x) (and_then (g x) (h x)))
  = first_failure (flat_map (fun x => [f x; g x; h x]) l).
Proof.
  induction l as [|x l IH]; simpl; [done|]. rewrite IH.
  by destruct (f x), (g x), (h x).
Qed.

Lemma first_failure_None (l : list Check) :
  first_failure l = None ↔ ∀ c, c ∈ l → c = None.
Proof.
  induction l as [|[e|] l IH]; simpl.
  - split; [|done]. by intros _ c ?%elem_of_nil.
  - split; [done|]. intros H. by apply (H (Some e)), elem_of_cons; left.
  - rewrite IH. split.
    + intros H c [->|?]%elem_of_cons; auto.
    + intros H c Hc. apply H, elem_of_cons. by right.
Qed.

Lemma first_failure_Some (l : list Check) (e : error) :
  first_failure l = Some e ↔
  ∃ passed rest, l = (passed ++ Some e :: rest)%list ∧
                 ∀ c, c ∈ passed → c = None.
Proof.
  induction l as [|[e'|] l IH]; simpl.
  - split; [done|]. by intros ([|??] & ? & ? & _).
  - split.
    + intros [= ->]. exists [], l. split; [done|]. by intros c ?%elem_of_nil.
    + intros ([|c passed] & rest & Hl & Hpassed); simplify_eq/=; [done|].
      by discriminate (Hpassed (Some e') ltac:(by apply elem_of_cons; left)).
  - rewrite IH. split.
    + intros (passed & rest & -> & Hpassed). exists (None :: passed), rest.
      split; [done|]. intros c [->|?]%elem_of_cons; auto.
    + intros ([|c passed] & rest & Hl & Hpassed); simplify_eq/=.
      exists passed, rest. split; [done|].
      intros c Hc. apply Hpassed, elem_of_cons. by right.
Qed.

(** The validator raises the first failure of its expectations. *)
Lemma validateResponseSchema_first_failure response expectedSchema :
  validateResponseSchema boxed response expectedSchema
  = first_failure (expectations boxed response expectedSchema).
Proof.
  unfold validateResponseSchema, expectations.
  rewrite !first_failure_app. simpl first_failure at 1.
  destruct (expect_property boxed response "status"); [done|].
  destruct (expect_property boxed response "body"); [done|]. simpl.
  f_equal.
  { destruct (schema_status expectedSchema) as [st|]; [|done].
    simpl. destruct (st =? 0); simpl; [done|].
    by destruct (expect_equal _ _). }
  f_equal.
  - destruct (schema_properties expectedSchema); [|done].
    apply forEach_first_failure.
  - destruct (schema_requiredFields expectedSchema); [|done].
    apply (forEach_fields_first_failure _
             (fun field => expect_property boxed (get boxed response "body") field)
             (fun field => expect_not_null (get boxed (get boxed response "body") field))
             (fun field => expect_not_undefined (get boxed (get boxed response "body") field))).
Qed.

(** The scenario of the documentation, for any response object with the
    given status and body. *)
Lemma validate_created_with_id (response : obj) :
  response !! "status" = Some (VNum 201) →
  response !! "body" = Some (VObj {[ "id" := VStr "abc" ]}) →
  validateResponseSchema boxed (VObj response) Samples.created_with_id = None.
Proof.
  intros Hstatus Hbody.
  unfold validateResponseSchema, expect_property, has_property, has_prop,
    get, get_prop.
  rewrite Hstatus, Hbody. vm_compute. reflexivity.
Qed.

Lemma validate_created_without_id (response : obj) :
  response !! "status" = Some (VNum 201) →
  response !! "body" = Some (VObj ∅) →
  validateResponseSchema boxed (VObj response) Samples.created_with_id
  = Some (AssertionError (ExpectedProperty (VObj ∅) "id")).
Proof.
  intros Hstatus Hbody.
  unfold validateResponseSchema, expect_property, has_property, has_prop,
    get, get_prop.
  rewrite Hstatus, Hbody. vm_compute. reflexivity.
Qed.

End ValidateFacts.

(** C7, as the code has it.  With the schema [{status: 201,
    requiredFields: ["id"]}], a response with status 201 and body
    [{id: "abc"}] passes, and one with body [{}] raises the assertion error
    "expected {} to have property 'id'".  In general the validator passes
    exactly when none of its expectations fails, and otherwise raises the
    first that does, in this order: the response has [status] and [body];
    the status equals the expected one when the schema gives a non-zero
    one; each key of [properties] is a property of the body; each required
    field is a property of the body (own or inherited) and its value is
    neither null nor undefined. *)
Theorem validateResponseSchema_first_unmet
    (boxed : val → obj) (response : val) (expectedSchema : Commands.Schema) :
  (∀ r : obj, r !! "status" = Some (VNum 201) →
      (r !! "body" = Some (VObj {[ "id" := VStr "abc" ]}) →
       Commands.validateResponseSchema boxed (VObj r) Samples.created_with_id
         = None) ∧
      (r !! "body" = Some (VObj ∅) →
       Commands.validateResponseSchema boxed (VObj r) Samples.created_with_id
         = Some (AssertionError (ExpectedProperty (VObj ∅) "id")))) ∧
  (Commands.validateResponseSchema boxed response expectedSchema = None ↔
   ∀ c, c ∈ Commands.expectations boxed response expectedSchema → c = None) ∧
  (∀ e, Commands.validateResponseSchema boxed response expectedSchema = Some e ↔
        ∃ passed rest,
          Commands.expectations boxed response expectedSchema
            = (passed ++ Some e :: rest)%list ∧
          ∀ c, c ∈ passed → c = None).
Proof.
  split; [|split].
  - intros r Hstatus. split; intros Hbody.
    + by apply validate_created_with_id.
    + by apply validate_created_without_id.
  - rewrite validateResponseSchema_first_failure. apply first_failure_None.
  - intros e. rewrite validateResponseSchema_first_failure.
    apply first_failure_Some.
Qed.

Lemma validateResponseSchema_first_unmet_witness :
  Commands.validateResponseSchema Samples.no_boxed Samples.response_with_id
    Samples.created_with_id = None ∧
  Commands.validateResponseSchema Samples.no_boxed Samples.response_without_id
    Samples.created_with_id
    = Some (AssertionError (ExpectedProperty (VObj ∅) "id")) ∧
  ∃ passed rest,
    Commands.expectations Samples.no_boxed Samples.response_without_id
      Samples.created_with_id
      = (passed ++ Some (AssertionError (ExpectedProperty (VObj ∅) "id"))
                :: rest)%list.
Proof.
  destruct (validateResponseSchema_first_unmet Samples.no_boxed
              Samples.response_without_id Samples.created_with_id)
    as (Hscenario & _ & Hfirst).
  split; [|split].
  - apply (Hscenario {[ "status" := VNum 201;
                        "body" := VObj {[ "id" := VStr "abc" ]} ]});
      vm_compute; reflexivity.
  - apply (Hscenario {[ "status" := VNum 201; "body" := VObj ∅ ]});
      vm_compute; reflexivity.
  - destruct (proj1 (Hfirst (AssertionError (ExpectedProperty (VObj ∅) "id"))))
      as (passed & rest & E & _); [vm_compute; reflexivity|].
    exists passed, rest. exact E.
Defined.

(** C7, counterexample.  With the schema [{status: 0}] a response whose
    status is 200 passes although the two differ: [if (expectedSchema.status)]
    skips the comparison for a zero.  And with [requiredFields:
    ["constructor"]] the body [{}] passes, since [have.property] also finds
    inherited members. *)
Lemma validateResponseSchema_skips_zero_status :
  Commands.validateResponseSchema Samples.no_boxed
    (VObj {[ "status" := VNum 200; "body" := VObj ∅ ]})
    (Commands.mkSchema (Some 0) None None) = None ∧
  VNum 200 ≠ VNum 0 ∧
  Commands.validateResponseSchema Samples.no_boxed
    (VObj {[ "status" := VNum 201; "body" := VObj ∅ ]})
    (Commands.mkSchema (Some 201) None (Some ["constructor"])) = None ∧
  (∅ : obj) !! "constructor" = None.
Proof.
  split; [vm_compute; reflexivity|]. split; [discriminate|].
  split; vm_compute; reflexivity.
Qed.

(** ** testRateLimit *)

Section RateLimitFacts.

Import Commands.



Lemma enqueue_requests_unfold remaining i endpoint method w :
  enqueue_requests (S remaining) i endpoint method w =
  let shaped := String.eqb method "POST" && Str.includes endpoint "/user" in
  let cmd :=
    if shaped
    then ApiRequestThen i "POST" endpoint
           (Some {[ "body" := VObj (userData (clock w (clock_reads w)) i) ]})
    else ApiRequestThen i method endpoint None in
  match enqueue_requests remaining (i + 1) endpoint method
          (if shaped then after_clock w else w) with
  | Ok rest w' => Ok (cmd :: rest) w'
  | Throw e w' => Throw e w'
  | OutOfFuel => OutOfFuel
  end.
Proof.
  simpl. unfold Host.bind.
  destruct (String.eqb method "POST" && Str.includes endpoint "/user");
    reflexivity.
Qed.

(** The loop queues one command per iteration and sends nothing. *)
Lemma enqueue_requests_spec remaining i endpoint method w :
  ∃ queue w',
    enqueue_requests remaining i endpoint method w = Ok queue w' ∧
    List.length queue = remaining ∧
    sent w' = sent w ∧ net w' = net w ∧ apiBaseUrl w' = apiBaseUrl w ∧
    (∀ cmd, cmd ∈ queue → plain cmd) ∧
    (String.eqb method "POST" && Str.includes endpoint "/user" = true →
     ∀ (j : nat) cmd, queue !! j = Some cmd →
       ∃ now, cmd = ApiRequestThen (i + Z.of_nat j) "POST" endpoint
                      (Some {[ "body" := VObj (userData now (i + Z.of_nat j)) ]})).
Proof.
  revert i w. induction remaining as [|remaining IH]; intros i w.
  - exists [], w. split_and!; try done.
    by intros cmd ?%elem_of_nil.
  - rewrite enqueue_requests_unfold. cbv zeta.
    set (shaped := String.eqb method "POST" && Str.includes endpoint "/user").
    destruct (IH (i + 1) (if shaped then after_clock w else w))
      as (rest & w' & -> & Hlen & Hsent & Hnet & Hbase & Hplain & Hshape).
    eexists _, w'. split; [reflexivity|]. split_and!.
    + simpl. by rewrite Hlen.
    + rewrite Hsent. by destruct shaped.
    + rewrite Hnet. by destruct shaped.
    + rewrite Hbase. by destruct shaped.
    + intros cmd [->|Hcmd]%elem_of_cons; [|by apply Hplain].
      destruct shaped; simpl; [|done].
      apply lookup_singleton_ne. discriminate.
    + intros Hshaped [|j] cmd Hcmd; simpl in Hcmd.
      * injection Hcmd as <-. fold shaped in Hshaped. rewrite Hshaped.
        rewrite Z.add_0_r. eauto.
      * destruct (Hshape Hshaped j cmd Hcmd) as [now ->].
        exists now. by replace (i + 1 + Z.of_nat j) with (i + Z.of_nat (S j)) by lia.
Qed.

Lemma run_queue_unfold i method endpoint options queue responses w :
  run_queue (ApiRequestThen i method endpoint options :: queue) responses w =
  match apiRequest method endpoint options w with
  | Ok response w' =>
      run_queue queue (responses ++ [response])%list
        (after_log (LogRateLimitRequest (i + 1) (status response)) w')
  | Throw e w' => Throw e w'
  | OutOfFuel => OutOfFuel
  end.
Proof. reflexivity. Qed.

(** Against a server that answers, the queue runs to its end and appends
    the answers in the order of the commands. *)
Lemma run_queue_spec queue responses w :
  responding w → (∀ cmd, cmd ∈ queue → plain cmd) →
  ∃ answers w',
    run_queue queue responses w = Ok (responses ++ answers)%list w' ∧
    List.length answers = List.length queue ∧
    net w' = net w ∧ apiBaseUrl w' = apiBaseUrl w ∧
    sent w' = (sent w ++ map (request_of (apiBaseUrl w)) queue)%list ∧
    (∀ (j : nat) r, answers !! j = Some r →
       ∃ cmd, queue !! j = Some cmd ∧
              net w (List.length (sent w) + j)%nat
                  (request_of (apiBaseUrl w) cmd) = Responded r).
Proof.
  revert responses w.
  induction queue as [|[i method endpoint options] queue IH];
    intros responses w Hnet Hplain.
  - exists [], w. split_and!; try done.
    + simpl. by rewrite List.app_nil_r.
    + simpl. by rewrite List.app_nil_r.
  - set (req := requestOptions (apiBaseUrl w) method endpoint (default ∅ options)).
    destruct (Hnet (List.length (sent w)) req) as [r Hr].
    assert (fail_on_status req = Some false) as Hoff.
    { apply fail_on_status_off. left.
      apply (Hplain (ApiRequestThen i method endpoint options)).
      apply elem_of_cons. by left. }
    destruct (apiRequest_responded method endpoint options w r Hoff Hr)
      as (w1 & E & Hsent1 & Hnet1 & Hbase1 & _).
    rewrite run_queue_unfold, E.
    destruct (IH (responses ++ [r])%list
                 (after_log (LogRateLimitRequest (i + 1) (status r)) w1))
      as (answers & w' & -> & Hlen & Hnet' & Hbase' & Hsent' & Hanswers).
    { intros n q. simpl. rewrite Hnet1. apply Hnet. }
    { intros cmd Hcmd. apply Hplain, elem_of_cons. by right. }
    simpl in Hnet', Hbase', Hsent', Hanswers.
    exists (r :: answers), w'. split_and!.
    + by rewrite <- List.app_assoc.
    + simpl. by rewrite Hlen.
    + by rewrite Hnet', Hnet1.
    + by rewrite Hbase', Hbase1.
    + rewrite Hsent', Hsent1, Hbase1, <- List.app_assoc. reflexivity.
    + intros [|j] r' Hj; simpl in Hj.
      * injection Hj as <-. eexists. split; [reflexivity|].
        rewrite Nat.add_0_r. exact Hr.
      * destruct (Hanswers j r' Hj) as (cmd & Hcmd & Hanswer).
        exists cmd. split; [done|].
        rewrite Hsent1, List.length_app, Hnet1, Hbase1 in Hanswer.
        simpl in Hanswer.
        by replace (List.length (sent w) + S j)%nat
          with (List.length (sent w) + 1 + j)%nat by lia.
Qed.

Lemma testRateLimit_unfold endpoint requestCount timeWindow method w :
  testRateLimit endpoint requestCount timeWindow method w =
  match enqueue_requests (Z.to_nat (default 10 requestCount)) 0 endpoint
          (default "POST" method) w with
  | Ok queue w1 =>
      match run_queue queue [] w1 with
      | Ok responses w2 =>
          Ok responses
             (after_log
                (LogRateLimitSummary
                   (List.length (List.filter rate_limited responses))
                   (default 10 requestCount)) w2)
      | Throw e w' => Throw e w'
      | OutOfFuel => OutOfFuel
      end
  | Throw e w' => Throw e w'
  | OutOfFuel => OutOfFuel
  end.
Proof. reflexivity. Qed.

End RateLimitFacts.

Section RateLimitClaims.

Import Commands.





End RateLimitClaims.




Example testRateLimit_keeps_rate_limited_answers :
  map status <$>
    value (Commands.testRateLimit "/account/v1/user" (Some 3) None None
             Samples.throttling)
  = Some [201; 201; 429].
Proof. vm_compute. reflexivity. Qed.

(** * Further properties of the helpers *)

(** ** generateSecurePassword for any finite length *)

(** X1.  For every finite length, whole or not, or none at all,
    [generateSecurePassword] returns (with enough loop iterations allowed) a
    password of at least 8 characters, exactly floor(length) of them when
    length > 8, with an uppercase letter, a lowercase letter and a digit.
    The password holds "!" as well unless 8 < length < 9: there the cut
    keeps 8 characters, and with a four-character clock fragment these are
    "Test" and the fragment, the "!" being the ninth. *)
Theorem generateSecurePassword_num_policy
    (length : option Q) (options : option obj) (w : World) :
  let L := default (inject_Z 12) length in
  let timestamp := Str.slice_last 4 (pretty (clock w (clock_reads w))) in
  (∃ fuel p w',
     TestDataGenerator.generateSecurePassword_num fuel length options w
       = Ok p w') ∧
  (∀ fuel p w',
     TestDataGenerator.generateSecurePassword_num fuel length options w
       = Ok p w' →
     8 ≤ Str.len p ∧
     Str.has Str.is_upper p = true ∧ Str.has Str.is_lower p = true ∧
     Str.has Str.is_digit p = true ∧
     ((inject_Z 8 < L)%Q → Str.len p = Qfloor L) ∧
     ((L <= inject_Z 8)%Q ∨ (inject_Z 9 <= L)%Q →
      Str.has Str.is_special p = true) ∧
     ((inject_Z 8 < L)%Q → (L < inject_Z 9)%Q →
      String.length timestamp = 4%nat → p = "Test" +:+ timestamp)).
Proof.
  intros L timestamp. split.
  - apply generateSecurePassword_num_returns.
  - intros fuel p w' E.
    destruct (generateSecurePassword_num_shape _ _ _ _ _ _ E)
      as (Hlen & Hu & Hl & Hd & Hexact & Hhead & Hcut).
    split_and!; try done.
    intros HL. by destruct (Hhead HL).
Qed.

Lemma generateSecurePassword_num_policy_witness :
  ∃ fuel p w',
    TestDataGenerator.generateSecurePassword_num fuel (Some (17 # 2)) None
      Samples.ticking = Ok p w' ∧
    p = "Test0123" ∧ Str.has Str.is_special p = false.
Proof.
  destruct (generateSecurePassword_num_policy (Some (17 # 2)) None Samples.ticking)
    as [(fuel & p & w' & E) Hpolicy].
  exists fuel, p, w'. split; [exact E|].
  destruct (Hpolicy fuel p w' E) as (_ & _ & _ & _ & _ & _ & Hcut).
  rewrite (Hcut ltac:(reflexivity) ltac:(reflexivity) ltac:(reflexivity)).
  split; reflexivity.
Defined.

Example generateSecurePassword_eight_and_a_half :
  value (TestDataGenerator.generateSecurePassword_num 3 (Some (17 # 2)) None
           Samples.ticking)
  = Some "Test0123".
Proof. vm_compute. reflexivity. Qed.

(** X2.  A password generated for a length that is not strictly between 8
    and 9 starts with the same head: "Test", then the last (at most four)
    characters of the decimal clock reading, then "!".  Two such passwords
    generated at the same clock reading therefore agree on that head,
    whatever the two lengths and whatever was drawn. *)
Theorem generateSecurePassword_head_from_clock
    (fuel1 fuel2 : nat) (length1 length2 : option Q)
    (options1 options2 : option obj)
    (w1 w2 : World) (p1 p2 : string) (w1' w2' : World) :
  let L1 := default (inject_Z 12) length1 in
  let L2 := default (inject_Z 12) length2 in
  TestDataGenerator.generateSecurePassword_num fuel1 length1 options1 w1
    = Ok p1 w1' →
  TestDataGenerator.generateSecurePassword_num fuel2 length2 options2 w2
    = Ok p2 w2' →
  clock w1 (clock_reads w1) = clock w2 (clock_reads w2) →
  (L1 <= inject_Z 8)%Q ∨ (inject_Z 9 <= L1)%Q →
  (L2 <= inject_Z 8)%Q ∨ (inject_Z 9 <= L2)%Q →
  ∃ head rest1 rest2,
    head = "Test" +:+ Str.slice_last 4 (pretty (clock w1 (clock_reads w1))) +:+ "!" ∧
    (6 ≤ String.length head ≤ 9)%nat ∧
    p1 = head +:+ rest1 ∧ p2 = head +:+ rest2.
Proof.
  intros L1 L2 E1 E2 Hclock HL1 HL2.
  destruct (generateSecurePassword_num_shape _ _ _ _ _ _ E1)
    as (_ & _ & _ & _ & _ & Hhead1 & _).
  destruct (generateSecurePassword_num_shape _ _ _ _ _ _ E2)
    as (_ & _ & _ & _ & _ & Hhead2 & _).
  destruct (Hhead1 HL1) as [_ [rest1 ->]].
  destruct (Hhead2 HL2) as [_ [rest2 ->]].
  rewrite <- Hclock.
  destruct (timestamp_fragment (clock w1 (clock_reads w1))) as [Hdigit Hlen].
  eexists _, rest1, rest2. split; [reflexivity|]. split.
  - rewrite !length_app. simpl.
    destruct (Str.slice_last 4 (pretty (clock w1 (clock_reads w1)))); [done|].
    simpl in *. lia.
  - by rewrite !app_assoc.
Qed.

Lemma generateSecurePassword_head_from_clock_witness :
  ∃ p1 p2 rest1 rest2,
    value (TestDataGenerator.generateSecurePassword_num 5 (Some (inject_Z 20)) None
             Samples.same_millisecond) = Some p1 ∧
    value (TestDataGenerator.generateSecurePassword_num 3 (Some (19 # 2)) None
             (after_draw (after_clock Samples.same_millisecond))) = Some p2 ∧
    p1 = "Test0123!" +:+ rest1 ∧ p2 = "Test0123!" +:+ rest2.
Proof.
  destruct (TestDataGenerator.generateSecurePassword_num 5 (Some (inject_Z 20)) None
              Samples.same_millisecond) as [p1 w1'| |] eqn:E1;
    [|apply (f_equal value) in E1; vm_compute in E1; discriminate E1..].
  destruct (TestDataGenerator.generateSecurePassword_num 3 (Some (19 # 2)) None
              (after_draw (after_clock Samples.same_millisecond)))
    as [p2 w2'| |] eqn:E2;
    [|apply (f_equal value) in E2; vm_compute in E2; discriminate E2..].
  destruct (generateSecurePassword_head_from_clock _ _ _ _ _ _ _ _ _ _ _ _
              E1 E2 eq_refl
              ltac:(right; discriminate) ltac:(right; discriminate))
    as (head & rest1 & rest2 & -> & _ & H1 & H2).
  exists p1, p2, rest1, rest2. split; [done|]. split; [done|].
  split; [exact H1 | exact H2].
Defined.

(** ** Default credentials of the generated records *)

Section DefaultCredentials.

Import TestDataGenerator ApiHelpers.

(** A password generated without a length has exactly twelve characters
    and meets the policy. *)
Lemma default_password_shape fuel options w p w' :
  generateSecurePassword fuel None options w = Ok p w' →
  Str.len p = 12 ∧
  Str.has Str.is_upper p = true ∧ Str.has Str.is_lower p = true ∧
  Str.has Str.is_digit p = true ∧ Str.has Str.is_special p = true.
Proof.
  intros E.
  apply generateSecurePassword_shape in E
    as (Hu & Hl & Hd & Hs & Hlen & _); [|simpl; lia].
  split; [apply Hlen; simpl; lia | done].
Qed.

Lemma generateUserData_parts fuel overrides w user w' :
  generateUserData fuel overrides w = Ok user w' →
  ∃ password w2 companyName phone,
    generateSecurePassword fuel None None (after_draw (after_clock w))
      = Ok password w2 ∧
    user = default ∅ overrides ∪
           user_literal
             ("test" +:+ "+" +:+ pretty (clock w (clock_reads w)) +:+ "+"
                +:+ Str.substring_from 7 (text36 (rng w (rng_draws w)))
                +:+ "@" +:+ "example.com")
             password companyName phone
             (or_else (get_prop (default ∅ overrides) "firstName")
                      (VStr "TestUser"))
             (or_else (get_prop (default ∅ overrides) "lastName")
                      (VStr "Automated")).
Proof.
  rewrite generateUserData_unfold.
  destruct (generateSecurePassword _ _ _ _) as [password w2| |] eqn:E;
    [|done..].
  rewrite generateUniqueEmail_unfold, generateCompanyName_unfold.
  destruct (generatePhoneNumber_returns None (after_draw (after_draw w2)))
    as (phone & -> & _).
  intros [= <- <-]. eexists password, w2, _, phone. split; [done|].
  unfold merge, spread, user_literal. reflexivity.
Qed.

Lemma generateApiUserData_unfold fuel overrides w :
  generateApiUserData fuel overrides w =
  match generateSecurePassword fuel None None (after_draw (after_clock w)) with
  | Ok password w' =>
      Ok (default ∅ overrides ∪
          (list_to_map
             [ ("userName",
                 VStr ("testUser+" +:+ pretty (clock w (clock_reads w)) +:+ "+"
                         +:+ Str.substring_from 7 (text36 (rng w (rng_draws w)))));
               ("password", VStr password) ] : obj))
         w'
  | Throw e w' => Throw e w'
  | OutOfFuel => OutOfFuel
  end.
Proof.
  unfold generateApiUserData, Host.bind, Date_now, Math_random.
  destruct (generateSecurePassword _ _ _ _); reflexivity.
Qed.

Lemma generateApiUserData_returns overrides w :
  ∃ fuel data w', generateApiUserData fuel overrides w = Ok data w'.
Proof.
  destruct (generateSecurePassword_returns None None (after_draw (after_clock w)))
    as (fuel & p & w' & E).
  exists fuel. rewrite generateApiUserData_unfold, E. eauto.
Qed.

Lemma two_field_lookup (userName password : val) (k : string) :
  (<["userName" := userName]> (<["password" := password]> ∅) : obj) !! k =
  if decide (k = "userName") then Some userName
  else if decide (k = "password") then Some password else None.
Proof.
  rewrite lookup_insert. destruct (decide (k = "userName")) as [->|Hu].
  - by rewrite decide_True.
  - rewrite decide_False by done. rewrite lookup_insert.
    destruct (decide (k = "password")) as [->|Hp].
    + by rewrite decide_True.
    + by rewrite decide_False.
Qed.

End DefaultCredentials.

(** X3.  In the record of [generateUserData], a password the caller does
    not override has exactly twelve characters with an uppercase letter, a
    lowercase letter, a digit and a special character, and an e-mail the
    caller does not override is "test+" + the clock reading + "+" + the
    random suffix + "@example.com". *)
Theorem generateUserData_default_credentials
    (fuel : nat) (overrides : obj) (w : World) (user : obj) (w' : World) :
  TestDataGenerator.generateUserData fuel (Some overrides) w = Ok user w' →
  (overrides !! "password" = None →
   ∃ p, user !! "password" = Some (VStr p) ∧ Str.len p = 12 ∧
        Str.has Str.is_upper p = true ∧ Str.has Str.is_lower p = true ∧
        Str.has Str.is_digit p = true ∧ Str.has Str.is_special p = true) ∧
  (overrides !! "email" = None →
   user !! "email" =
   Some (VStr ("test+" +:+ pretty (clock w (clock_reads w)) +:+ "+"
                 +:+ Str.substring_from 7 (text36 (rng w (rng_draws w)))
                 +:+ "@example.com"))).
Proof.
  intros (password & w2 & companyName & phone & Epw & ->)%generateUserData_parts.
  simpl default. split; intros Hnone; rewrite lookup_union_r by done.
  - exists password. split; [reflexivity|].
    by apply (default_password_shape fuel None (after_draw (after_clock w)) _ w2).
  - reflexivity.
Qed.

Lemma generateUserData_default_credentials_witness :
  ∃ fuel user w' p,
    TestDataGenerator.generateUserData fuel (Some Samples.john) Samples.ticking
      = Ok user w' ∧
    user !! "password" = Some (VStr p) ∧ Str.len p = 12 ∧
    user !! "email" = Some (VStr "test+1730000000123+82mvyr@example.com").
Proof.
  destruct (generateUserData_returns (Some Samples.john) Samples.ticking)
    as (fuel & user & w' & E).
  destruct (generateUserData_default_credentials fuel _ _ _ _ E)
    as [Hpassword Hemail].
  destruct (Hpassword eq_refl) as (p & Hp & Hlen & _).
  exists fuel, user, w', p. split; [exact E|]. split; [exact Hp|].
  split; [exact Hlen|]. rewrite (Hemail eq_refl). vm_compute. reflexivity.
Defined.

(** X4.  [generateApiUserData(overrides)] returns (with enough loop
    iterations allowed) a record that holds the overrides as given;
    a [userName] the caller leaves out is "testUser+" + the clock reading +
    "+" + the random suffix, a [password] the caller leaves out has twelve
    characters and meets the policy, and the record has no field beyond
    these two and the caller's. *)
Theorem generateApiUserData_fields (overrides : obj) (w : World) :
  (∃ fuel data w',
     ApiHelpers.generateApiUserData fuel (Some overrides) w = Ok data w') ∧
  (∀ fuel data w',
     ApiHelpers.generateApiUserData fuel (Some overrides) w = Ok data w' →
     (∀ k v, overrides !! k = Some v → data !! k = Some v) ∧
     (overrides !! "userName" = None →
      data !! "userName" =
      Some (VStr ("testUser+" +:+ pretty (clock w (clock_reads w)) +:+ "+"
                    +:+ Str.substring_from 7 (text36 (rng w (rng_draws w)))))) ∧
     (overrides !! "password" = None →
      ∃ p, data !! "password" = Some (VStr p) ∧ Str.len p = 12 ∧
           Str.has Str.is_upper p = true ∧ Str.has Str.is_lower p = true ∧
           Str.has Str.is_digit p = true ∧ Str.has Str.is_special p = true) ∧
     (∀ k, k ≠ "userName" → k ≠ "password" → data !! k = overrides !! k)).
Proof.
  split; [apply generateApiUserData_returns|].
  intros fuel data w'. rewrite generateApiUserData_unfold.
  destruct (TestDataGenerator.generateSecurePassword _ _ _ _)
    as [password w2| |] eqn:Epw; [|done..].
  intros [= <- <-]. simpl default. split_and!.
  - intros k v Hk. by apply lookup_union_Some_l.
  - intros Hnone. rewrite lookup_union_r by done.
    rewrite two_field_lookup. by rewrite decide_True.
  - intros Hnone. rewrite lookup_union_r by done.
    rewrite two_field_lookup. rewrite decide_False by discriminate.
    rewrite decide_True by done. exists password. split; [done|].
    by apply (default_password_shape fuel None (after_draw (after_clock w)) _ w2).
  - intros k Hu Hp. rewrite lookup_union, two_field_lookup.
    rewrite !decide_False by done. by destruct (overrides !! k).
Qed.

Lemma generateApiUserData_fields_witness :
  ∃ fuel data w',
    ApiHelpers.generateApiUserData fuel
      (Some {[ "password" := VStr "weak" ]}) Samples.ticking = Ok data w' ∧
    data !! "password" = Some (VStr "weak") ∧
    data !! "userName" = Some (VStr "testUser+1730000000123+82mvyr") ∧
    data !! "email" = None.
Proof.
  destruct (generateApiUserData_fields {[ "password" := VStr "weak" ]}
              Samples.ticking) as [(fuel & data & w' & E) Hfields].
  destruct (Hfields fuel data w' E) as (Hover & HuserName & _ & Hother).
  exists fuel, data, w'. split; [exact E|].
  split; [apply Hover; reflexivity|].
  split; [rewrite (HuserName eq_refl); vm_compute; reflexivity|].
  rewrite Hother by discriminate. reflexivity.
Defined.

(** ** Company names and phone numbers *)

Section VocabularyFacts.

Import TestDataGenerator.

Lemma all_app p (a b : string) : Str.all p (a +:+ b) = Str.all p a && Str.all p b.
Proof.
  induction a as [|x a IH]; [done|]. rewrite app_cons. simpl.
  rewrite IH. by destruct (p x).
Qed.

Lemma all_weaken (p q : ascii → bool) (s : string) :
  (∀ c, p c = true → q c = true) → Str.all p s = true → Str.all q s = true.
Proof.
  intros Hpq. induction s as [|c s IH]; simpl; [done|].
  intros [Hc Hs]%andb_true_iff. by rewrite (Hpq c Hc), IH.
Qed.

Lemma prefix_app (a b : string) : String.prefix a (a +:+ b) = true.
Proof.
  induction a as [|x a IH]; [by destruct b|].
  rewrite app_cons. simpl. by destruct (ascii_dec x x).
Qed.

(** An index inside the list picks one of its elements. *)
Lemma pick_elem (l : list string) (i : Z) :
  0 ≤ i < Z.of_nat (List.length l) → pick l i ∈ l.
Proof.
  intros Hi. unfold pick. destruct (Z.ltb_spec i 0); [lia|].
  destruct (l !! Z.to_nat i) as [x|] eqn:Hx.
  - simpl. by apply list_elem_of_lookup_2 in Hx.
  - apply lookup_ge_None in Hx. lia.
Qed.

(** A number with [n] decimal digits prints as [n] characters. *)
Lemma pretty_N_go_length (n : nat) (x : N) (s : string) :
  (x < 10 ^ N.of_nat n)%N → (n = 0%nat ∨ 10 ^ N.of_nat (n - 1) ≤ x)%N →
  String.length (pretty_N_go x s) = (n + String.length s)%nat.
Proof.
  revert x s. induction n as [|n IH]; intros x s Hlt Hge.
  - simpl in Hlt. assert (x = 0%N) as -> by lia. by rewrite pretty_N_go_0.
  - destruct Hge as [|Hge]; [done|].
    replace (S n - 1)%nat with n in Hge by lia.
    rewrite Nat2N.inj_succ, N.pow_succ_r' in Hlt.
    assert (0 < 10 ^ N.of_nat n)%N by (apply N.neq_0_lt_0, N.pow_nonzero; lia).
    rewrite pretty_N_go_step by lia.
    rewrite IH; [simpl; lia| |].
    + apply N.Div0.div_lt_upper_bound. lia.
    + destruct n as [|n]; [by left|right].
      replace (S n - 1)%nat with n by lia.
      rewrite Nat2N.inj_succ, N.pow_succ_r' in Hge.
      apply N.div_le_lower_bound; lia.
Qed.

Lemma pretty_Z_length (n : nat) (z : Z) :
  10 ^ Z.of_nat (n - 1) ≤ z < 10 ^ Z.of_nat n → (0 < n)%nat →
  String.length (pretty z) = n ∧ Str.all Str.is_digit (pretty z) = true.
Proof.
  intros [Hge Hlt] Hn.
  assert (0 < z) as Hpos.
  { eapply Z.lt_le_trans; [|exact Hge]. apply Z.pow_pos_nonneg; lia. }
  destruct z as [|q|q]; try lia.
  split; [|apply (pretty_N_digits (N.pos q))].
  change (pretty (Z.pos q)) with (pretty_N_go (N.pos q) "").
  rewrite (pretty_N_go_length n); [simpl; lia| |].
  - apply N2Z.inj_lt. rewrite N2Z.inj_pow. simpl.
    by rewrite nat_N_Z.
  - right. apply N2Z.inj_le. rewrite N2Z.inj_pow. simpl.
    by rewrite nat_N_Z.
Qed.

(** The groups of a phone number. *)
Lemma phone_group (d : Draw) (k : Z) (n : nat) :
  draw_ok d → k = 9 * 10 ^ Z.of_nat (n - 1) → (0 < n)%nat →
  String.length (pretty (scaled d k + 10 ^ Z.of_nat (n - 1))) = n ∧
  Str.all Str.is_phone_char (pretty (scaled d k + 10 ^ Z.of_nat (n - 1))) = true.
Proof.
  intros [_ Hscaled] -> Hn.
  assert (0 < 10 ^ Z.of_nat (n - 1)) as Hpow by (apply Z.pow_pos_nonneg; lia).
  specialize (Hscaled (9 * 10 ^ Z.of_nat (n - 1)) ltac:(lia)).
  destruct (pretty_Z_length n (scaled d (9 * 10 ^ Z.of_nat (n - 1))
                                 + 10 ^ Z.of_nat (n - 1))) as [Hlen Hdigits];
    [|done|].
  - replace (Z.of_nat n) with (Z.succ (Z.of_nat (n - 1))) by lia.
    rewrite Z.pow_succ_r by lia. lia.
  - split; [done|]. revert Hdigits. apply all_weaken.
    intros c Hc. unfold Str.is_phone_char. by rewrite Hc.
Qed.

End VocabularyFacts.

(** X5.  When the two draws behave as [Math.random()] does (values in
    [0, 1)), [generateCompanyName] returns one of the seven prefixes, a
    space, and one of the seven suffixes; an index never falls outside the
    vocabularies. *)
Theorem generateCompanyName_vocabulary (w : World) :
  draw_ok (rng w (rng_draws w)) → draw_ok (rng w (S (rng_draws w))) →
  ∃ prefix suffix w',
    TestDataGenerator.generateCompanyName w = Ok (prefix +:+ " " +:+ suffix) w' ∧
    prefix ∈ TestDataGenerator.prefixes ∧ suffix ∈ TestDataGenerator.suffixes.
Proof.
  intros [_ H1] [_ H2]. rewrite generateCompanyName_unfold.
  eexists _, _, _. split; [reflexivity|]. split.
  - apply pick_elem. apply (H1 7). lia.
  - apply pick_elem. apply (H2 7). lia.
Qed.

Lemma generateCompanyName_vocabulary_witness :
  ∃ prefix suffix w',
    TestDataGenerator.generateCompanyName Samples.ticking
      = Ok (prefix +:+ " " +:+ suffix) w' ∧
    prefix ∈ TestDataGenerator.prefixes ∧ suffix ∈ TestDataGenerator.suffixes.
Proof.
  apply generateCompanyName_vocabulary; exact draw_long_ok.
Defined.

(** X6.  When the draws behave as [Math.random()] does, every phone number
    has exactly 15 characters, all of them digits, '+' or '-'; it starts
    with "+44-" for the format "UK" and with "+1-" for "US", for no format
    and for any unknown format (which gets the 555 pattern). *)
Theorem generatePhoneNumber_shape (format : option string) (w : World) :
  draw_ok (rng w (rng_draws w)) →
  draw_ok (rng w (S (rng_draws w))) →
  draw_ok (rng w (S (S (rng_draws w)))) →
  ∃ phone w',
    TestDataGenerator.generatePhoneNumber format w = Ok phone w' ∧
    String.length phone = 15%nat ∧
    Str.all Str.is_phone_char phone = true ∧
    String.prefix (if String.eqb (default "US" format) "UK" then "+44-" else "+1-")
                  phone = true ∧
    (default "US" format ≠ "US" → default "US" format ≠ "UK" →
     String.prefix "+1-555-" phone = true).
Proof.
  intros Ha Hb Hc. unfold TestDataGenerator.generatePhoneNumber.
  destruct (String.eqb_spec (default "US" format) "US") as [HUS|HUS];
    [|destruct (String.eqb_spec (default "US" format) "UK") as [HUK|HUK]].
  - destruct (phone_group _ 900 3 Ha eq_refl ltac:(lia)) as [La Ca].
    destruct (phone_group _ 900 3 Hb eq_refl ltac:(lia)) as [Lb Cb].
    destruct (phone_group _ 9000 4 Hc eq_refl ltac:(lia)) as [Lc Cc].
    eexists _, _. split; [reflexivity|]. simpl rng. simpl rng_draws.
    change (10 ^ Z.of_nat (3 - 1)) with 100 in *.
    change (10 ^ Z.of_nat (4 - 1)) with 1000 in *.
    rewrite !length_app, !all_app, La, Lb, Lc, Ca, Cb, Cc, HUS.
    split_and!; try done. apply (prefix_app "+1-").
  - destruct (phone_group _ 9000 4 Ha eq_refl ltac:(lia)) as [La Ca].
    destruct (phone_group _ 900000 6 Hb eq_refl ltac:(lia)) as [Lb Cb].
    eexists _, _. split; [reflexivity|]. simpl rng. simpl rng_draws.
    change (10 ^ Z.of_nat (4 - 1)) with 1000 in *.
    change (10 ^ Z.of_nat (6 - 1)) with 100000 in *.
    rewrite !length_app, !all_app, La, Lb, Ca, Cb, HUK.
    split_and!; try done. apply (prefix_app "+44-").
  - destruct (phone_group _ 900 3 Ha eq_refl ltac:(lia)) as [La Ca].
    destruct (phone_group _ 9000 4 Hb eq_refl ltac:(lia)) as [Lb Cb].
    eexists _, _. split; [reflexivity|]. simpl rng. simpl rng_draws.
    change (10 ^ Z.of_nat (3 - 1)) with 100 in *.
    change (10 ^ Z.of_nat (4 - 1)) with 1000 in *.
    rewrite !length_app, !all_app, La, Lb, Ca, Cb.
    destruct (String.eqb_spec (default "US" format) "UK") as [|_]; [done|].
    split_and!; try done.
    intros _ _. apply (prefix_app "+1-555-").
Qed.

Lemma generatePhoneNumber_shape_witness :
  ∃ phone w',
    TestDataGenerator.generatePhoneNumber (Some "FR") Samples.ticking = Ok phone w' ∧
    String.length phone = 15%nat ∧ String.prefix "+1-555-" phone = true.
Proof.
  destruct (generatePhoneNumber_shape (Some "FR") Samples.ticking
              draw_long_ok draw_long_ok draw_long_ok)
    as (phone & w' & E & Hlen & _ & _ & H555).
  exists phone, w'. split; [exact E|]. split; [exact Hlen|].
  apply H555; discriminate.
Defined.

(** ** validateResponseStructure *)

Section StructureFacts.

Import ApiHelpers.

Lemma for_in_spec entries response (expectedStructure : gmap string string) :
  expectedStructure !! "hasOwnProperty" = None →
  ∃ b, for_in entries response expectedStructure = Returns b ∧
       (b = true ↔
        ∀ key expectedType, (key, expectedType) ∈ entries →
                            entry_met response key expectedType).
Proof.
  intros Hown. induction entries as [|[key expectedType] entries IH]; simpl.
  - exists true. split; [done|]. split; [|done].
    by intros _ key ty ?%elem_of_nil.
  - rewrite Hown. destruct IH as (b & -> & Hb).
    destruct (in_response response key) eqn:Hin; simpl.
    + destruct (String.eqb_spec expectedType "any") as [Hany|Hany]; simpl.
      * exists b. split; [done|]. rewrite Hb. split.
        -- intros H k ty [[= -> ->]|?]%elem_of_cons; [|by apply H].
           split; [done|by left].
        -- intros H k ty Hk. apply H, elem_of_cons. by right.
      * destruct (String.eqb_spec (typeof (response_member response key))
                    expectedType) as [Hty|Hty]; simpl.
        -- exists b. split; [done|]. rewrite Hb. split.
           ++ intros H k ty [[= -> ->]|?]%elem_of_cons; [|by apply H].
              split; [done|by right].
           ++ intros H k ty Hk. apply H, elem_of_cons. by right.
        -- exists false. split; [done|]. split; [done|]. intros H.
           destruct (H key expectedType) as [_ [?|?]]; try done.
           apply elem_of_cons. by left.
    + exists false. split; [done|]. split; [done|]. intros H.
      destruct (H key expectedType) as [Hin' _];
        [apply elem_of_cons; by left|]. congruence.
Qed.

Lemma validateResponseStructure_bool response (expectedStructure : gmap string string) :
  expectedStructure !! "hasOwnProperty" = None →
  ∃ b, validateResponseStructure response expectedStructure = Returns b ∧
       (b = true ↔
        truthy response = true ∧ typeof response = "object" ∧
        ∀ key expectedType, expectedStructure !! key = Some expectedType →
                            entry_met response key expectedType).
Proof.
  intros Hown. unfold validateResponseStructure.
  destruct (truthy response); simpl.
  - destruct (String.eqb_spec (typeof response) "object") as [Hobj|Hobj]; simpl.
    + destruct (for_in_spec (map_to_list expectedStructure) response
                  expectedStructure Hown) as (b & -> & Hb).
      exists b. split; [done|]. rewrite Hb. split.
      * intros H. split_and!; try done.
        intros key ty Hk. by apply H, elem_of_map_to_list.
      * intros (_ & _ & H) key ty Hk. by apply H, elem_of_map_to_list.
    + exists false. split; [done|]. split; [done|]. by intros (_ & ? & _).
  - exists false. split; [done|]. split; [done|]. by intros (? & _).
Qed.

End StructureFacts.

(** X7.  For an expected structure without an entry named
    [hasOwnProperty], [validateResponseStructure] returns a boolean, and it
    returns true exactly when the response is a non-null object and every
    expected key is a property of it (own or inherited) whose [typeof] is
    the expected type name, or whose expected type is "any".  In
    particular [null] is rejected although its [typeof] is "object", and
    properties the structure does not mention are ignored. *)
Theorem validateResponseStructure_true_iff
    (response : val) (expectedStructure : gmap string string) :
  expectedStructure !! "hasOwnProperty" = None →
  ∃ b, ApiHelpers.validateResponseStructure response expectedStructure
         = ApiHelpers.Returns b ∧
       (b = true ↔
        truthy response = true ∧ typeof response = "object" ∧
        ∀ key expectedType, expectedStructure !! key = Some expectedType →
          ApiHelpers.in_response response key = true ∧
          (expectedType = "any" ∨
           typeof (ApiHelpers.response_member response key) = expectedType)).
Proof. apply validateResponseStructure_bool. Qed.

Lemma validateResponseStructure_true_iff_witness :
  ApiHelpers.validateResponseStructure Samples.user_response Samples.user_structure
    = ApiHelpers.Returns true ∧
  ApiHelpers.validateResponseStructure VNull Samples.userID_structure
    = ApiHelpers.Returns false.
Proof.
  split.
  - destruct (validateResponseStructure_true_iff Samples.user_response
                Samples.user_structure ltac:(vm_compute; reflexivity))
      as (b & E & _).
    rewrite E. vm_compute in E. exact (eq_sym E).
  - destruct (validateResponseStructure_true_iff VNull
                Samples.userID_structure ltac:(vm_compute; reflexivity))
      as (b & E & _).
    rewrite E. vm_compute in E. exact (eq_sym E).
Defined.

(** X8.  An expected structure that itself has an entry named
    [hasOwnProperty] shadows the method the loop calls: for every non-null
    object response the validation then raises a [TypeError] instead of
    returning a boolean, and every other response is still rejected with
    false before the loop starts. *)
Theorem validateResponseStructure_shadowed
    (response : val) (expectedStructure : gmap string string)
    (expectedType : string) :
  expectedStructure !! "hasOwnProperty" = Some expectedType →
  ApiHelpers.validateResponseStructure response expectedStructure =
  if truthy response && String.eqb (typeof response) "object"
  then ApiHelpers.ThrowsTypeError else ApiHelpers.Returns false.
Proof.
  intros Hown. unfold ApiHelpers.validateResponseStructure.
  destruct (truthy response); simpl; [|done].
  destruct (String.eqb (typeof response) "object"); simpl; [|done].
  destruct (map_to_list expectedStructure) as [|[key ty] entries] eqn:Hentries.
  - apply map_to_list_empty_iff in Hentries. subst. by rewrite lookup_empty in Hown.
  - simpl. by rewrite Hown.
Qed.

Lemma validateResponseStructure_shadowed_witness :
  ApiHelpers.validateResponseStructure (VObj ∅) Samples.shadowing_structure
    = ApiHelpers.ThrowsTypeError ∧
  ApiHelpers.validateResponseStructure (VStr "body") Samples.shadowing_structure
    = ApiHelpers.Returns false.
Proof.
  split.
  - exact (validateResponseStructure_shadowed (VObj ∅)
             Samples.shadowing_structure "function"
             ltac:(vm_compute; reflexivity)).
  - exact (validateResponseStructure_shadowed (VStr "body")
             Samples.shadowing_structure "function"
             ltac:(vm_compute; reflexivity)).
Defined.



(** ** validateResponseSchema: order of the expectations *)

Section ValidateOrder.

Import Commands.

Variable boxed : val → obj.

Lemma and_then_assoc (a b c : Check) :
  and_then (and_then a b) c = and_then a (and_then b c).
Proof. by destruct a. Qed.

Lemma forEach_app {A} (l1 l2 : list A) (f : A → Check) :
  forEach (l1 ++ l2) f = and_then (forEach l1 f) (forEach l2 f).
Proof.
  induction l1 as [|x l1 IH]; simpl; [done|].
  by rewrite IH, and_then_assoc.
Qed.

(** Required fields that pass can be dropped from the front of the list. *)
Lemma validateResponseSchema_fields_app response st properties fields more :
  validateResponseSchema boxed response
    (mkSchema st properties (Some (fields ++ more)%list)) =
  and_then
    (validateResponseSchema boxed response (mkSchema st properties (Some fields)))
    (forEach more (field_check boxed (get boxed response "body"))).
Proof.
  unfold validateResponseSchema. simpl.
  rewrite forEach_app.
  destruct (expect_property boxed response "status"); [done|].
  destruct (expect_property boxed response "body"); [done|]. simpl.
  destruct (match st with Some _ => _ | None => _ end); [done|]. simpl.
  destruct (match properties with Some _ => _ | None => _ end); [done|]. simpl.
  reflexivity.
Qed.

Lemma validateResponseSchema_no_target response expectedSchema :
  has_property boxed response "status" ≠ Some true ∨
  has_property boxed response "body" ≠ Some true →
  ∃ a, validateResponseSchema boxed response expectedSchema
         = Some (AssertionError a) ∧
       (a = TargetNullOrUndefined ∨ a = ExpectedProperty response "status" ∨
        a = ExpectedProperty response "body").
Proof.
  intros H. unfold validateResponseSchema, expect_property.
  destruct (has_property boxed response "status") as [[]|] eqn:Hs; simpl.
  - destruct H as [H|H]; [done|].
    destruct (has_property boxed response "body") as [[]|] eqn:Hb; simpl;
      [done|eauto..].
  - eauto.
  - eauto.
Qed.

Lemma validateResponseSchema_status_first response st properties fields :
  has_property boxed response "status" = Some true →
  has_property boxed response "body" = Some true →
  st ≠ 0 → get boxed response "status" ≠ VNum st →
  validateResponseSchema boxed response (mkSchema (Some st) properties fields)
  = Some (AssertionError
            (ExpectedEqual (get boxed response "status") (VNum st))).
Proof.
  intros Hs Hb Hst Hne. unfold validateResponseSchema, expect_property.
  rewrite Hs, Hb. simpl.
  destruct (Z.eqb_spec st 0) as [|_]; [done|]. simpl.
  unfold expect_equal.
  destruct (get boxed response "status") as [| | |z| | |]; try done.
  destruct (Z.eqb_spec z st) as [->|]; [done|]. done.
Qed.

End ValidateOrder.

(** X10.  A response that is null or undefined, or that has no [status] or
    no [body] property, is rejected with an assertion error whatever the
    schema says, the empty schema included: the two presence checks come
    before anything the schema asks for. *)
Theorem validateResponseSchema_needs_status_and_body
    (boxed : val → obj) (response : val) (expectedSchema : Commands.Schema) :
  Commands.has_property boxed response "status" ≠ Some true ∨
  Commands.has_property boxed response "body" ≠ Some true →
  ∃ a, Commands.validateResponseSchema boxed response expectedSchema
         = Some (AssertionError a) ∧
       (a = TargetNullOrUndefined ∨ a = ExpectedProperty response "status" ∨
        a = ExpectedProperty response "body").
Proof. apply validateResponseSchema_no_target. Qed.

Lemma validateResponseSchema_needs_status_and_body_witness :
  Commands.validateResponseSchema Samples.no_boxed VNull
    (Commands.mkSchema None None None)
    = Some (AssertionError TargetNullOrUndefined) ∧
  Commands.validateResponseSchema Samples.no_boxed
    (VObj {[ "status" := VNum 200 ]}) (Commands.mkSchema None None None)
    = Some (AssertionError
              (ExpectedProperty (VObj {[ "status" := VNum 200 ]}) "body")).
Proof.
  split.
  - destruct (validateResponseSchema_needs_status_and_body Samples.no_boxed
                VNull (Commands.mkSchema None None None))
      as (a & E & _); [left; discriminate|].
    rewrite E. vm_compute in E. exact (eq_sym E).
  - destruct (validateResponseSchema_needs_status_and_body Samples.no_boxed
                (VObj {[ "status" := VNum 200 ]})
                (Commands.mkSchema None None None))
      as (a & E & _); [right; vm_compute; discriminate|].
    rewrite E. vm_compute in E. exact (eq_sym E).
Defined.

(** X11.  When the response has [status] and [body] and the schema gives a
    non-zero status that differs from the response's, the validator raises
    the equality failure carrying the actual and the expected status, and
    it does so whatever [properties] and [requiredFields] contain: a wrong
    status is reported before any missing field. *)
Theorem validateResponseSchema_status_before_fields
    (boxed : val → obj) (response : val) (st : Z)
    (properties : option (list (string * val)))
    (requiredFields : option (list string)) :
  Commands.has_property boxed response "status" = Some true →
  Commands.has_property boxed response "body" = Some true →
  st ≠ 0 → Commands.get boxed response "status" ≠ VNum st →
  Commands.validateResponseSchema boxed response
    (Commands.mkSchema (Some st) properties requiredFields)
  = Some (AssertionError
            (ExpectedEqual (Commands.get boxed response "status") (VNum st))).
Proof. apply validateResponseSchema_status_first. Qed.

Lemma validateResponseSchema_status_before_fields_witness :
  Commands.validateResponseSchema Samples.no_boxed Samples.response_without_id
    (Commands.mkSchema (Some 200) None (Some ["id"]))
  = Some (AssertionError (ExpectedEqual (VNum 201) (VNum 200))).
Proof.
  rewrite (validateResponseSchema_status_before_fields Samples.no_boxed
             Samples.response_without_id 200 None (Some ["id"]));
    [vm_compute; reflexivity|vm_compute; reflexivity..| |].
  - discriminate.
  - vm_compute. discriminate.
Defined.

(** X12.  Required fields are examined in list order and the first one that
    fails decides the error: after fields that pass, a field that is not a
    property of the body raises "expected body to have property field", one
    whose value is null raises the not-null failure, one whose value is
    undefined raises the not-undefined failure, and the fields listed after
    it are never examined. *)
Theorem validateResponseSchema_first_failing_field
    (boxed : val → obj) (response : val) (st : option Z)
    (properties : option (list (string * val)))
    (passed rest : list string) (field : string) :
  let body := Commands.get boxed response "body" in
  let outcome :=
    Commands.validateResponseSchema boxed response
      (Commands.mkSchema st properties (Some (passed ++ field :: rest)%list)) in
  Commands.validateResponseSchema boxed response
    (Commands.mkSchema st properties (Some passed)) = None →
  (Commands.has_property boxed body field = Some false →
   outcome = Some (AssertionError (ExpectedProperty body field))) ∧
  (Commands.has_property boxed body field = Some true →
   Commands.get boxed body field = VNull →
   outcome = Some (AssertionError ExpectedNotNull)) ∧
  (Commands.has_property boxed body field = Some true →
   Commands.get boxed body field = VUndef →
   outcome = Some (AssertionError ExpectedNotUndefined)).
Proof.
  intros body outcome Hpassed. subst outcome.
  rewrite validateResponseSchema_fields_app, Hpassed. simpl.
  unfold Commands.field_check, Commands.expect_property. fold body.
  split_and!.
  - by intros ->.
  - by intros -> ->.
  - by intros -> ->.
Qed.

Lemma validateResponseSchema_first_failing_field_witness :
  Commands.validateResponseSchema Samples.no_boxed
    (VObj {[ "status" := VNum 201;
             "body" := VObj {[ "userID" := VStr "abc"; "username" := VNull ]} ]})
    (Commands.mkSchema (Some 201) None (Some ["userID"; "username"; "books"]))
  = Some (AssertionError ExpectedNotNull).
Proof.
  apply (validateResponseSchema_first_failing_field Samples.no_boxed
           (VObj {[ "status" := VNum 201;
                    "body" := VObj {[ "userID" := VStr "abc";
                                      "username" := VNull ]} ]})
           (Some 201) None ["userID"] ["books"] "username");
    vm_compute; reflexivity.
Defined.

(** ** apiRequest: what goes on the wire and into the log *)

Section ApiRequestWire.

Import Commands.

Lemma upper_char_idemp (c : ascii) :
  Str.upper_char (Str.upper_char c) = Str.upper_char c.
Proof. destruct c as [[] [] [] [] [] [] [] []]; reflexivity. Qed.

Lemma toUpperCase_idemp (s : string) :
  Str.toUpperCase (Str.toUpperCase s) = Str.toUpperCase s.
Proof.
  induction s as [|c s IH]; simpl; [done|]. by rewrite upper_char_idemp, IH.
Qed.

End ApiRequestWire.

(** X13.  [apiRequest] does not distinguish the case of its method: calling
    it with a method or with the same method in upper case gives the same
    outcome, the same request on the wire and the same log, in every
    world. *)
Theorem apiRequest_method_case_insensitive
    (method endpoint : string) (options : option obj) (w : World) :
  Commands.apiRequest method endpoint options w =
  Commands.apiRequest (Str.toUpperCase method) endpoint options w.
Proof.
  rewrite !apiRequest_unfold. cbv zeta.
  unfold Commands.requestOptions. by rewrite toUpperCase_idemp.
Qed.

(** X15.  What [apiRequest] logs: always the request line; the request
    body only when it is truthy (a body of 0, "", false or null is sent but
    not logged); and the two response lines exactly when the call returns
    a response.  A failed call leaves the request line in the log. *)
Theorem apiRequest_log
    (method endpoint : string) (options : option obj) (w : World) :
  let body := get_prop (default ∅ options) "body" in
  let r := Commands.apiRequest method endpoint options w in
  log_of r =
  (logged w
   ++ [LogApiRequest (Str.toUpperCase method) (apiBaseUrl w +:+ endpoint)]
   ++ (if truthy body then [LogRequestBody body] else [])
   ++ match value r with
      | Some response =>
          [LogResponseStatus (status response); LogResponseBody (Host.body response)]
      | None => []
      end)%list.
Proof.
  intros body r. subst r. rewrite apiRequest_unfold. cbv zeta. fold body.
  destruct (fail_on_status _) as [strict|].
  - destruct (net w _ _) as [resp|why].
    + destruct (strict && negb (ok_status (status resp)));
        destruct (truthy body); simpl;
        rewrite <- ?List.app_assoc; simpl; try done.
    + destruct (truthy body); simpl; rewrite <- ?List.app_assoc; done.
  - destruct (truthy body); simpl; rewrite <- ?List.app_assoc; done.
Qed.

(** ** testRateLimit: edges of the loop *)

Section RateLimitEdges.

Import Commands.

Lemma apiRequest_keeps_clock method endpoint options w r w' :
  apiRequest method endpoint options w = Ok r w' →
  clock_reads w' = clock_reads w.
Proof.
  rewrite apiRequest_unfold. cbv zeta.
  destruct (fail_on_status _) as [strict|]; [|done].
  destruct (net w _ _) as [resp|why]; [|done].
  destruct (strict && negb (ok_status (status resp))); [done|].
  intros [= <- <-]. by destruct (truthy _).
Qed.

Lemma run_queue_keeps_clock queue responses w rs w' :
  run_queue queue responses w = Ok rs w' → clock_reads w' = clock_reads w.
Proof.
  revert responses w.
  induction queue as [|[i method endpoint options] queue IH]; intros responses w.
  - by intros [= <- <-].
  - rewrite run_queue_unfold.
    destruct (apiRequest method endpoint options w) as [r w1| |] eqn:E; [|done..].
    intros H%IH. simpl in H. rewrite H. by eapply apiRequest_keeps_clock.
Qed.

(** Outside the user-creation shape the loop queues bare requests and does
    not touch the world. *)
Lemma enqueue_requests_bare remaining i endpoint method w :
  String.eqb method "POST" && Str.includes endpoint "/user" = false →
  ∃ queue,
    enqueue_requests remaining i endpoint method w = Ok queue w ∧
    List.length queue = remaining ∧
    (∀ cmd, cmd ∈ queue → plain cmd) ∧
    map (request_of (apiBaseUrl w)) queue
      = replicate remaining (requestOptions (apiBaseUrl w) method endpoint ∅).
Proof.
  intros Hbare. revert i. induction remaining as [|remaining IH]; intros i.
  - exists []. split_and!; try done. by intros cmd ?%elem_of_nil.
  - rewrite enqueue_requests_unfold. cbv zeta. rewrite Hbare.
    destruct (IH (i + 1)) as (rest & -> & Hlen & Hplain & Hmap).
    eexists. split; [reflexivity|]. split_and!.
    + simpl. by rewrite Hlen.
    + intros cmd [->|Hcmd]%elem_of_cons; [done|by apply Hplain].
    + simpl. by rewrite Hmap.
Qed.

Lemma apiRequest_no_response_sent method endpoint options w why :
  fail_on_status (requestOptions (apiBaseUrl w) method endpoint (default ∅ options))
    = Some false →
  net w (List.length (sent w))
      (requestOptions (apiBaseUrl w) method endpoint (default ∅ options))
    = NoResponse why →
  ∃ w', apiRequest method endpoint options w = Throw (TransportError why) w' ∧
        List.length (sent w') = S (List.length (sent w)).
Proof.
  intros Hoff Hnet. rewrite apiRequest_unfold. cbv zeta. rewrite Hoff, Hnet.
  eexists. split; [reflexivity|].
  destruct (truthy _); simpl; rewrite List.length_app; simpl; lia.
Qed.

(** The run stops at the first request the transport does not answer. *)
Lemma run_queue_stops queue responses w (k : nat) why :
  (k < List.length queue)%nat →
  (∀ cmd, cmd ∈ queue → plain cmd) →
  (∀ (j : nat) req, (j < k)%nat →
     ∃ r, net w (List.length (sent w) + j)%nat req = Responded r) →
  (∀ req, net w (List.length (sent w) + k)%nat req = NoResponse why) →
  ∃ w', run_queue queue responses w = Throw (TransportError why) w' ∧
        List.length (sent w') = (List.length (sent w) + k + 1)%nat.
Proof.
  revert responses w k.
  induction queue as [|[i method endpoint options] queue IH];
    intros responses w k Hk Hplain Hanswered Hfails; simpl in Hk; [lia|].
  set (req := requestOptions (apiBaseUrl w) method endpoint (default ∅ options)).
  assert (fail_on_status req = Some false) as Hoff.
  { apply fail_on_status_off. left.
    apply (Hplain (ApiRequestThen i method endpoint options)).
    apply elem_of_cons. by left. }
  rewrite run_queue_unfold. destruct k as [|k].
  - destruct (apiRequest_no_response_sent method endpoint options w why Hoff)
      as (w' & -> & Hsent).
    { specialize (Hfails req). by rewrite Nat.add_0_r in Hfails. }
    exists w'. split; [done|]. lia.
  - destruct (Hanswered 0%nat req ltac:(lia)) as [r Hr].
    rewrite Nat.add_0_r in Hr.
    destruct (apiRequest_responded method endpoint options w r Hoff Hr)
      as (w1 & -> & Hsent1 & Hnet1 & _).
    destruct (IH (responses ++ [r])%list
                 (after_log (LogRateLimitRequest (i + 1) (status r)) w1) k)
      as (w' & E & Hsent').
    + lia.
    + intros cmd Hcmd. apply Hplain, elem_of_cons. by right.
    + intros j q Hj. simpl. rewrite Hnet1, Hsent1, List.length_app. simpl.
      destruct (Hanswered (S j) q ltac:(lia)) as [r' Hr'].
      exists r'. rewrite <- Hr'. f_equal. lia.
    + intros q. simpl. rewrite Hnet1, Hsent1, List.length_app. simpl.
      rewrite <- (Hfails q). f_equal. lia.
    + exists w'. split; [done|]. rewrite Hsent'. simpl.
      rewrite Hsent1, List.length_app. simpl. lia.
Qed.




End RateLimitEdges.

(** X16.  For a method other than exactly "POST" (the comparison is
    case-sensitive, so "post" counts as other) or an endpoint that does not
    contain "/user", [testRateLimit] sends the same bare request n times:
    method upper-cased, default headers, no body; and it never reads the
    clock. *)
Theorem testRateLimit_bare_requests
    (endpoint : string) (requestCount timeWindow : option Z)
    (method : option string) (w : World) :
  (∀ n req, ∃ r, net w n req = Responded r) →
  default "POST" method ≠ "POST" ∨ Str.includes endpoint "/user" = false →
  let req := Commands.requestOptions (apiBaseUrl w) (default "POST" method)
               endpoint ∅ in
  ∃ responses w',
    Commands.testRateLimit endpoint requestCount timeWindow method w
      = Ok responses w' ∧
    sent w' = (sent w ++ replicate (Z.to_nat (default 10 requestCount)) req)%list ∧
    clock_reads w' = clock_reads w ∧
    req !! "body" = None ∧
    req !! "method" = Some (VStr (Str.toUpperCase (default "POST" method))) ∧
    req !! "headers" = Some (VObj Commands.defaultHeaders).
Proof.
  intros Hnet Hbare req.
  assert (String.eqb (default "POST" method) "POST"
          && Str.includes endpoint "/user" = false) as Hcond.
  { destruct Hbare as [Hm| ->]; [|by rewrite andb_false_r].
    by destruct (String.eqb_spec (default "POST" method) "POST"). }
  rewrite testRateLimit_unfold.
  destruct (enqueue_requests_bare (Z.to_nat (default 10 requestCount)) 0
              endpoint (default "POST" method) w Hcond)
    as (queue & -> & Hlen & Hplain & Hmap).
  destruct (run_queue_spec queue [] w Hnet Hplain)
    as (answers & w2 & E & _ & _ & _ & Hsent & _).
  rewrite E. simpl. eexists _, _. split; [reflexivity|]. split_and!.
  - simpl. by rewrite Hsent, Hmap.
  - simpl. by apply run_queue_keeps_clock in E.
  - unfold req. by rewrite requestOptions_default.
  - unfold req. by rewrite requestOptions_default.
  - by apply requestOptions_headers_default.
Qed.

Lemma testRateLimit_bare_requests_witness :
  ∃ responses w',
    Commands.testRateLimit "/account/v1/user" (Some 2) None (Some "post")
      Samples.throttling = Ok responses w' ∧
    sent w' = replicate 2
                (Commands.requestOptions "https://demoqa.com" "post"
                   "/account/v1/user" ∅) ∧
    Commands.requestOptions "https://demoqa.com" "post" "/account/v1/user" ∅
      !! "body" = None ∧
    Commands.requestOptions "https://demoqa.com" "post" "/account/v1/user" ∅
      !! "method" = Some (VStr "POST").
Proof.
  destruct (testRateLimit_bare_requests "/account/v1/user" (Some 2) None
              (Some "post") Samples.throttling)
    as (responses & w' & E & Hsent & _ & Hbody & Hmethod & _).
  { intros n req. eexists. reflexivity. }
  { left. discriminate. }
  exists responses, w'. split; [exact E|]. split; [exact Hsent|].
  split; [exact Hbody | exact Hmethod].
Defined.

(** X17.  With a request count of zero or below, [testRateLimit] sends
    nothing, reads no clock and returns the empty list, whatever the state
    of the network; only the summary line is logged. *)
Theorem testRateLimit_nothing_to_send
    (endpoint : string) (requestCount timeWindow : option Z)
    (method : option string) (w : World) :
  default 10 requestCount ≤ 0 →
  Commands.testRateLimit endpoint requestCount timeWindow method w
  = Ok [] (after_log (LogRateLimitSummary 0 (default 10 requestCount)) w).
Proof.
  intros Hn. rewrite testRateLimit_unfold.
  replace (Z.to_nat (default 10 requestCount)) with 0%nat by lia.
  reflexivity.
Qed.

Lemma testRateLimit_nothing_to_send_witness :
  Commands.testRateLimit "/account/v1/user" (Some (-1)) None None
    Samples.unreachable
  = Ok [] (after_log (LogRateLimitSummary 0 (-1)) Samples.unreachable).
Proof.
  apply (testRateLimit_nothing_to_send "/account/v1/user" (Some (-1)) None None
           Samples.unreachable).
  simpl. lia.
Defined.

(** X18.  When the transport answers the first k requests and fails on the
    next one (k below the request count), [testRateLimit] raises that
    transport failure instead of returning, and stops there: exactly k + 1
    requests have been sent and the remaining ones never are. *)
Theorem testRateLimit_stops_at_transport_failure
    (endpoint : string) (requestCount timeWindow : option Z)
    (method : option string) (w : World) (k : nat) (why : transport_failure) :
  Z.of_nat k < default 10 requestCount →
  (∀ (j : nat) req, (j < k)%nat →
     ∃ r, net w (List.length (sent w) + j)%nat req = Responded r) →
  (∀ req, net w (List.length (sent w) + k)%nat req = NoResponse why) →
  ∃ w',
    Commands.testRateLimit endpoint requestCount timeWindow method w
      = Throw (TransportError why) w' ∧
    List.length (sent w') = (List.length (sent w) + k + 1)%nat.
Proof.
  intros Hk Hanswered Hfails. rewrite testRateLimit_unfold.
  destruct (enqueue_requests_spec (Z.to_nat (default 10 requestCount)) 0
              endpoint (default "POST" method) w)
    as (queue & w1 & -> & Hlen & Hsent1 & Hnet1 & _ & Hplain & _).
  destruct (run_queue_stops queue [] w1 k why) as (w' & -> & Hsent').
  - lia.
  - exact Hplain.
  - intros j req Hj. rewrite Hnet1, Hsent1. by apply Hanswered.
  - intros req. rewrite Hnet1, Hsent1. apply Hfails.
  - exists w'. split; [done|]. by rewrite Hsent', Hsent1.
Qed.

Lemma testRateLimit_stops_at_transport_failure_witness :
  ∃ w',
    Commands.testRateLimit "/account/v1/user" (Some 5) None None
      Samples.unreachable = Throw (TransportError ConnectionRefused) w' ∧
    List.length (sent w') = 1%nat.
Proof.
  destruct (testRateLimit_stops_at_transport_failure "/account/v1/user"
              (Some 5) None None Samples.unreachable 0 ConnectionRefused)
    as (w' & E & Hsent).
  - simpl. lia.
  - intros j req Hj. lia.
  - intros req. reflexivity.
  - exists w'. split; [exact E | exact Hsent].
Defined.



(** ** generateSecurePassword: how much it draws and builds *)

Section PaddingEffort.

Import TestDataGenerator.

Lemma pretty_digit_length (d : Z) :
  0 ≤ d < 10 → String.length (pretty d) = 1%nat.
Proof.
  intros H.
  assert (d = 0 ∨ d = 1 ∨ d = 2 ∨ d = 3 ∨ d = 4 ∨ d = 5 ∨ d = 6 ∨ d = 7
          ∨ d = 8 ∨ d = 9) as Hd by lia.
  repeat destruct Hd as [->|Hd]; [reflexivity..|]. by subst.
Qed.

(** One draw and three more characters per iteration; the loop leaves at
    the first length that is not below the bound. *)
Lemma pad_password_effort fuel bound password w p w' :
  (∀ n, draw_ok (rng w n)) →
  pad_password fuel bound password w = Ok p w' →
  ∃ iterations : nat,
    Str.len p = Str.len password + 3 * Z.of_nat iterations ∧
    rng_draws w' = (rng_draws w + iterations)%nat ∧
    clock_reads w' = clock_reads w ∧
    bound ≤ Str.len p ∧
    ((0 < iterations)%nat → Str.len p < bound + 3).
Proof.
  revert password w. induction fuel as [|fuel IH]; intros password w Hrng;
    rewrite pad_password_unfold; destruct (Z.ltb_spec (Str.len password) bound);
    try done.
  - intros [= <- <-]. exists 0%nat. split_and!; try done; lia.
  - intros E. apply IH in E as (n & Hlen & Hdraws & Hclock & Hbound & Hlast);
      [|exact Hrng].
    assert (Str.len (password +:+ "a" +:+
                       pretty (scaled (rng w (rng_draws w)) 10) +:+ "!")
            = Str.len password + 3) as Hstep.
    { unfold Str.len. rewrite !length_app.
      rewrite pretty_digit_length by (apply (Hrng (rng_draws w)); lia).
      simpl. lia. }
    exists (S n). rewrite Hstep in Hlen. simpl in Hdraws, Hclock.
    split_and!; try done; lia.
  - intros [= <- <-]. exists 0%nat. split_and!; try done; lia.
Qed.

Lemma length_substring (start stop : Z) (s : string) :
  (String.length (Str.substring start stop s) ≤ String.length s)%nat ∧
  (0 ≤ start ≤ stop → Str.len (Str.substring start stop s) ≤ stop - start).
Proof.
  unfold Str.substring, Str.len. rewrite length_take, length_drop. lia.
Qed.

Lemma generateSecurePassword_num_effort_holds fuel length options w p w' :
  let bound := Qceiling (Math_max (inject_Z 8) (default (inject_Z 12) length)) in
  (∀ n, draw_ok (rng w n)) →
  generateSecurePassword_num fuel length options w = Ok p w' →
  ∃ iterations : nat,
    clock_reads w' = S (clock_reads w) ∧
    rng_draws w' = (rng_draws w + 1 + iterations)%nat ∧
    3 * Z.of_nat iterations < bound ∧
    Str.len p ≤ Z.max 11 (bound + 2).
Proof.
  intros bound Hrng. rewrite generateSecurePassword_num_unfold. cbv zeta.
  fold bound.
  assert (8 ≤ bound) as H8.
  { unfold bound. rewrite <- (Qceiling_Z 8) at 1.
    apply Qceiling_resp_le, Math_max_ge. }
  destruct (pad_password _ _ _ _) as [padded w''| |] eqn:E; [|done..].
  intros [= <- <-].
  apply pad_password_effort in E
    as (n & Hlen & Hdraws & Hclock & Hbound & Hlast); [|exact Hrng].
  simpl in Hdraws, Hclock.
  destruct (timestamp_fragment (clock w (clock_reads w))) as [Hdigit Hts].
  destruct (length_substring 2 4 (text36 (rng w (rng_draws w)))) as [_ Hsuffix].
  specialize (Hsuffix ltac:(lia)).
  rewrite !len_app in Hlen.
  change (Str.len "Test") with 4 in Hlen. change (Str.len "!") with 1 in Hlen.
  pose proof (len_nonneg (Str.slice_last 4 (pretty (clock w (clock_reads w))))) as Hts0.
  pose proof (len_nonneg (Str.substring 2 4 (text36 (rng w (rng_draws w))))) as Hs0.
  assert (Str.len (Str.slice_last 4 (pretty (clock w (clock_reads w)))) ≤ 4) as Hts4.
  { unfold Str.len. lia. }
  assert (Str.len (if num_lt (default (inject_Z 12) length)
                            (inject_Z (Str.len padded))
                       && num_lt (inject_Z 8) (default (inject_Z 12) length)
                   then Str.substring 0 (to_integer (default (inject_Z 12) length))
                          padded
                   else padded) ≤ Str.len padded) as Hp.
  { destruct (_ && _); [|lia].
    destruct (length_substring 0 (to_integer (default (inject_Z 12) length)) padded)
      as [Hle _]. unfold Str.len. lia. }
  exists n. split_and!; try done; lia.
Qed.

End PaddingEffort.

(** X20.  What a call of [generateSecurePassword] costs, for any finite
    length and with draws as [Math.random()] gives them.  The call returns
    (with enough loop iterations allowed) after one reading of the clock
    and 1 + k draws, k being the number of iterations of the padding loop,
    with 3k < max(8, ceil(length)).  The password has at most
    max(11, max(8, ceil(length)) + 2) characters, and the padding loop
    itself, started on any string, never returns one longer than both its
    start and that bound plus 2. *)
Theorem generateSecurePassword_num_effort
    (length : option Q) (options : option obj) (w : World) :
  let bound := Qceiling (TestDataGenerator.Math_max (inject_Z 8)
                           (default (inject_Z 12) length)) in
  (∀ n, draw_ok (rng w n)) →
  (∃ fuel p w',
     TestDataGenerator.generateSecurePassword_num fuel length options w
       = Ok p w') ∧
  (∀ fuel p w',
     TestDataGenerator.generateSecurePassword_num fuel length options w
       = Ok p w' →
     ∃ iterations : nat,
       clock_reads w' = S (clock_reads w) ∧
       rng_draws w' = (rng_draws w + 1 + iterations)%nat ∧
       3 * Z.of_nat iterations < bound ∧
       Str.len p ≤ Z.max 11 (bound + 2)) ∧
  (∀ fuel password padded w',
     TestDataGenerator.pad_password_num fuel
       (TestDataGenerator.Math_max (inject_Z 8) (default (inject_Z 12) length))
       password w = Ok padded w' →
     Str.len padded ≤ Z.max (Str.len password) (bound + 2)).
Proof.
  intros bound Hrng. split_and!.
  - apply generateSecurePassword_num_returns.
  - intros fuel p w' E.
    by apply (generateSecurePassword_num_effort_holds fuel length options w).
  - intros fuel password padded w' E. rewrite pad_password_num_ceiling in E.
    apply pad_password_effort in E as (n & Hlen & _ & _ & _ & Hlast);
      [|exact Hrng].
    fold bound in Hlast. destruct n as [|n]; [lia|].
    specialize (Hlast ltac:(lia)). lia.
Qed.

Lemma generateSecurePassword_num_effort_witness :
  (∀ n, draw_ok (rng Samples.ticking n)) ∧
  ∃ fuel p w',
    TestDataGenerator.generateSecurePassword_num fuel (Some (inject_Z 20)) None
      Samples.ticking = Ok p w' ∧
    clock_reads w' = 1%nat ∧ (rng_draws w' ≤ 7)%nat ∧ Str.len p ≤ 22.
Proof.
  assert (∀ n, draw_ok (rng Samples.ticking n)) as Hrng.
  { intros n. exact draw_long_ok. }
  split; [exact Hrng|].
  destruct (generateSecurePassword_num_effort (Some (inject_Z 20)) None
              Samples.ticking Hrng) as [(fuel & p & w' & E) [Heffort _]].
  exists fuel, p, w'. split; [exact E|].
  destruct (Heffort fuel p w' E) as (k & Hclock & Hdraws & Hk & Hlen).
  change (Qceiling _) with 20 in Hk, Hlen.
  rewrite Hclock, Hdraws. simpl. split; [reflexivity|]. split; lia.
Defined.
